(** * The session driver of the VCD parser: VCDFileParser

    A shallow embedding of [VCDFileParser] (VCDFileParser.hpp and its
    definition file): the constructor, [parse_file], [scan_begin],
    [scan_end] and the two [error] sinks.  The C++ object [*this] and the
    process state it touches (files, the flex scanner objects, the heap of
    [VCDFile] and [VCDScope] objects, [stderr]) are threaded explicitly
    through a small state monad whose outcomes distinguish a normal
    return, a call to [exit] and undefined behaviour.

    The development also covers the callers that come with the driver:
    the printer of the standalone program ([print_scope_signals],
    [traverse_scope]) and the text that the generator of test inputs
    ([generate_test_vcd]) writes. *)

From Stdlib Require Import ZArith Lia.
From stdpp Require Import gmap strings pretty.

Open Scope Z_scope.

(** ** The time type

    [VCDTime] is a typedef of VCDTypes.hpp.  The driver uses only [0],
    unary minus and [std::numeric_limits<VCDTime>]; these are the fields
    of the class below. *)

Class NumericLimits (T : Type) := {
  nl_zero : T;
  nl_max : T;
  nl_lowest : T;
  nl_neg : T -> T;
  nl_le : T -> T -> bool
}.

(** A value [t] lies in the retention window of a session. *)
Definition in_window {T} `{NumericLimits T} (lo hi t : T) : bool :=
  nl_le lo t && nl_le t hi.

(** ** Objects of the data model that the driver touches *)

Inductive VCDScopeType :=
  | VCD_SCOPE_BEGIN
  | VCD_SCOPE_FORK
  | VCD_SCOPE_FUNCTION
  | VCD_SCOPE_MODULE
  | VCD_SCOPE_TASK
  | VCD_SCOPE_ROOT.

(** Addresses of heap objects ([VCDFile*], [VCDScope*]); [None] in an
    [option addr] is [nullptr]. *)
Abbreviation addr := nat (only parsing).

Record VCDSignal := mkVCDSignal {
  hash : string;
  reference : string;
  size : Z;
  lindex : Z;
  rindex : Z
}.

(** A [VCDScope].  [new VCDScope] leaves [type] and [parent]
    uninitialised, which is [None] here. *)
Record VCDScope := mkVCDScope {
  name : string;
  type : option VCDScopeType;
  parent : option addr;
  children : list addr;
  signals : list VCDSignal
}.

Definition fresh_VCDScope : VCDScope :=
  {| name := ""; type := None; parent := None; children := []; signals := [] |}.

Section Driver.

Context {VCDTime : Type} `{NumericLimits VCDTime}.

(** A [VCDFile]: the public members the driver and its callers read. *)
Record VCDFile := mkVCDFile {
  root_scope : option addr;
  date : string;
  version : string;
  file_scopes : list addr;
  file_signals : list VCDSignal;
  file_times : list VCDTime
}.

Definition fresh_VCDFile : VCDFile :=
  {| root_scope := None; date := ""; version := "";
     file_scopes := []; file_signals := []; file_times := [] |}.

(** [VCDParser::location], reduced to what [error] prints. *)
Record location := mkLocation { line : Z; column : Z }.

(** [FILE*] values other than [NULL]. *)
Inductive FILEptr :=
  | stdin
  | stream (h : nat).

(** ** The session object *)

Record VCDFileParser := mkVCDFileParser {
  filepath : string;
  trace_scanning : bool;
  trace_parsing : bool;
  start_time : VCDTime;
  end_time : VCDTime;
  fh : option addr;
  scopes : list addr;
  current_time : VCDTime;
  loc : location;
  scanner : option nat;
  input_file : option FILEptr
}.

Definition set_filepath (v : string) (p : VCDFileParser) : VCDFileParser :=
  mkVCDFileParser v (trace_scanning p) (trace_parsing p) (start_time p)
    (end_time p) (fh p) (scopes p) (current_time p) (loc p) (scanner p)
    (input_file p).

Definition set_trace_scanning (v : bool) (p : VCDFileParser) : VCDFileParser :=
  mkVCDFileParser (filepath p) v (trace_parsing p) (start_time p)
    (end_time p) (fh p) (scopes p) (current_time p) (loc p) (scanner p)
    (input_file p).

Definition set_trace_parsing (v : bool) (p : VCDFileParser) : VCDFileParser :=
  mkVCDFileParser (filepath p) (trace_scanning p) v (start_time p)
    (end_time p) (fh p) (scopes p) (current_time p) (loc p) (scanner p)
    (input_file p).

Definition set_fh (v : option addr) (p : VCDFileParser) : VCDFileParser :=
  mkVCDFileParser (filepath p) (trace_scanning p) (trace_parsing p)
    (start_time p) (end_time p) v (scopes p) (current_time p) (loc p)
    (scanner p) (input_file p).

Definition set_scopes (v : list addr) (p : VCDFileParser) : VCDFileParser :=
  mkVCDFileParser (filepath p) (trace_scanning p) (trace_parsing p)
    (start_time p) (end_time p) (fh p) v (current_time p) (loc p)
    (scanner p) (input_file p).

Definition set_current_time (v : VCDTime) (p : VCDFileParser) : VCDFileParser :=
  mkVCDFileParser (filepath p) (trace_scanning p) (trace_parsing p)
    (start_time p) (end_time p) (fh p) (scopes p) v (loc p) (scanner p)
    (input_file p).

Definition set_loc (v : location) (p : VCDFileParser) : VCDFileParser :=
  mkVCDFileParser (filepath p) (trace_scanning p) (trace_parsing p)
    (start_time p) (end_time p) (fh p) (scopes p) (current_time p) v
    (scanner p) (input_file p).

Definition set_scanner (v : option nat) (p : VCDFileParser) : VCDFileParser :=
  mkVCDFileParser (filepath p) (trace_scanning p) (trace_parsing p)
    (start_time p) (end_time p) (fh p) (scopes p) (current_time p) (loc p)
    v (input_file p).

Definition set_input_file (v : option FILEptr) (p : VCDFileParser) : VCDFileParser :=
  mkVCDFileParser (filepath p) (trace_scanning p) (trace_parsing p)
    (start_time p) (end_time p) (fh p) (scopes p) (current_time p) (loc p)
    (scanner p) v.

(** The constructor.  It assigns [start_time], [end_time],
    [current_time], the two toggles, [scanner] and [input_file]; [fh] is
    left uninitialised, so its initial value [junk] is arbitrary.
    [filepath], [scopes] and [loc] are default-constructed. *)
Definition VCDFileParser_ctor (junk : option addr) : VCDFileParser :=
  {| filepath := "";
     trace_scanning := false;
     trace_parsing := false;
     start_time := nl_neg nl_max;
     end_time := nl_max;
     fh := junk;
     scopes := [];
     current_time := nl_zero;
     loc := mkLocation 1 1;
     scanner := None;
     input_file := None |}.

(** ** The process state outside the session object *)

(** What [fopen(path, "r")] finds at a path: a file it can read, or a
    reason ([errno]) why it cannot.  A path absent from the map does not
    exist ([ENOENT]). *)
Inductive FsEntry :=
  | Readable (content : string)
  | Unopenable (err : Z).

Definition ENOENT : Z := 2.
Definition EXIT_FAILURE : Z := 1.

(** A flex scanner object ([yyscan_t] points to one). *)
Record ScannerObj := mkScannerObj {
  yy_extra_bound : bool;
  yy_flex_debug : Z;
  yy_in : option FILEptr
}.

Record World := mkWorld {
  w_fs : gmap string FsEntry;
  w_streams : gmap nat string;
  w_next_stream : nat;
  w_stdin : string;
  w_stdin_open : bool;
  w_errno : Z;
  w_scanners : gmap nat ScannerObj;
  w_next_scanner : nat;
  w_files : gmap addr VCDFile;
  w_scope_objs : gmap addr VCDScope;
  w_next_obj : addr;
  w_stderr : list string
}.

Definition set_w_streams (v : gmap nat string) (n : nat) (w : World) : World :=
  mkWorld (w_fs w) v n (w_stdin w) (w_stdin_open w) (w_errno w)
    (w_scanners w) (w_next_scanner w) (w_files w) (w_scope_objs w)
    (w_next_obj w) (w_stderr w).

Definition set_w_stdin (v : string) (w : World) : World :=
  mkWorld (w_fs w) (w_streams w) (w_next_stream w) v (w_stdin_open w)
    (w_errno w) (w_scanners w) (w_next_scanner w) (w_files w)
    (w_scope_objs w) (w_next_obj w) (w_stderr w).

Definition set_w_stdin_open (v : bool) (w : World) : World :=
  mkWorld (w_fs w) (w_streams w) (w_next_stream w) (w_stdin w) v
    (w_errno w) (w_scanners w) (w_next_scanner w) (w_files w)
    (w_scope_objs w) (w_next_obj w) (w_stderr w).

Definition set_w_errno (v : Z) (w : World) : World :=
  mkWorld (w_fs w) (w_streams w) (w_next_stream w) (w_stdin w)
    (w_stdin_open w) v (w_scanners w) (w_next_scanner w) (w_files w)
    (w_scope_objs w) (w_next_obj w) (w_stderr w).

Definition set_w_scanners (v : gmap nat ScannerObj) (n : nat) (w : World) : World :=
  mkWorld (w_fs w) (w_streams w) (w_next_stream w) (w_stdin w)
    (w_stdin_open w) (w_errno w) v n (w_files w) (w_scope_objs w)
    (w_next_obj w) (w_stderr w).

Definition set_w_heap (f : gmap addr VCDFile) (s : gmap addr VCDScope)
    (n : addr) (w : World) : World :=
  mkWorld (w_fs w) (w_streams w) (w_next_stream w) (w_stdin w)
    (w_stdin_open w) (w_errno w) (w_scanners w) (w_next_scanner w) f s n
    (w_stderr w).

Definition set_w_stderr (v : list string) (w : World) : World :=
  mkWorld (w_fs w) (w_streams w) (w_next_stream w) (w_stdin w)
    (w_stdin_open w) (w_errno w) (w_scanners w) (w_next_scanner w)
    (w_files w) (w_scope_objs w) (w_next_obj w) v.

(** ** The monad of driver code

    A machine is the session object [self] together with the world.  A
    piece of driver code either returns a value, calls [exit], or has
    undefined behaviour ([pop] or [top] of an empty stack, a null or
    dangling dereference). *)

Record Machine := mkMachine { self : VCDFileParser; world : World }.

Inductive Outcome (A : Type) :=
  | Returned (a : A) (m : Machine)
  | Exited (status : Z) (m : Machine)
  | Undefined.

Arguments Returned {A} a m.
Arguments Exited {A} status m.
Arguments Undefined {A}.

Definition Prog (A : Type) := Machine -> Outcome A.

Definition ret {A} (a : A) : Prog A := fun m => Returned a m.

Definition bind {A B} (c : Prog A) (k : A -> Prog B) : Prog B :=
  fun m =>
    match c m with
    | Returned a m' => k a m'
    | Exited st m' => Exited st m'
    | Undefined => Undefined
    end.

Definition exit {A} (status : Z) : Prog A := fun m => Exited status m.
Definition undefined {A} : Prog A := fun _ => Undefined.

Definition get_self {A} (f : VCDFileParser -> A) : Prog A :=
  fun m => Returned (f (self m)) m.
Definition get_world {A} (f : World -> A) : Prog A :=
  fun m => Returned (f (world m)) m.
Definition modify_self (f : VCDFileParser -> VCDFileParser) : Prog unit :=
  fun m => Returned tt (mkMachine (f (self m)) (world m)).
Definition modify_world (f : World -> World) : Prog unit :=
  fun m => Returned tt (mkMachine (self m) (f (world m))).

Notation "x <- c ;; k" := (bind c (fun x => k))
  (at level 100, c at next level, right associativity).
Notation "c ;; k" := (bind c (fun _ => k))
  (at level 100, right associativity).

(** ** C library and flex primitives *)

(** [strerror] of the C library. *)
Variable strerror : Z -> string.

(** [fopen(path, "r")]: a fresh open stream positioned at the start of
    the file, or [NULL] with [errno] set. *)
Definition fopen_r (path : string) : Prog (option FILEptr) :=
  fun m =>
    let w := world m in
    match w_fs w !! path with
    | Some (Readable content) =>
        let h := w_next_stream w in
        Returned (Some (stream h))
          (mkMachine (self m)
             (set_w_streams (<[h := content]> (w_streams w)) (S h) w))
    | Some (Unopenable e) =>
        Returned None (mkMachine (self m) (set_w_errno e w))
    | None =>
        Returned None (mkMachine (self m) (set_w_errno ENOENT w))
    end.

(** [fclose(f)].  Closing a stream that is not open is undefined. *)
Definition fclose (f : FILEptr) : Prog unit :=
  fun m =>
    let w := world m in
    match f with
    | stdin =>
        if w_stdin_open w
        then Returned tt (mkMachine (self m) (set_w_stdin_open false w))
        else Undefined
    | stream h =>
        match w_streams w !! h with
        | Some _ =>
            Returned tt
              (mkMachine (self m)
                 (set_w_streams (delete h (w_streams w)) (w_next_stream w) w))
        | None => Undefined
        end
    end.

(** [yylex_init(&scanner)]: allocates a scanner object and stores its
    handle in the [scanner] member. *)
Definition yylex_init : Prog unit :=
  fun m =>
    let w := world m in
    let sc := w_next_scanner w in
    Returned tt
      (mkMachine (set_scanner (Some sc) (self m))
         (set_w_scanners
            (<[sc := mkScannerObj false 0 None]> (w_scanners w)) (S sc) w)).

Definition with_scanner (sc : option nat)
    (f : ScannerObj -> ScannerObj) : Prog unit :=
  fun m =>
    let w := world m in
    match sc with
    | None => Undefined
    | Some i =>
        match w_scanners w !! i with
        | None => Undefined
        | Some so =>
            Returned tt
              (mkMachine (self m)
                 (set_w_scanners (<[i := f so]> (w_scanners w))
                    (w_next_scanner w) w))
        end
    end.

(** [yyset_extra(this, scanner)] *)
Definition yyset_extra (sc : option nat) : Prog unit :=
  with_scanner sc (fun so => mkScannerObj true (yy_flex_debug so) (yy_in so)).

(** [yyset_debug(flag, scanner)] *)
Definition yyset_debug (flag : Z) (sc : option nat) : Prog unit :=
  with_scanner sc (fun so => mkScannerObj (yy_extra_bound so) flag (yy_in so)).

(** [yyset_in(in_str, scanner)] *)
Definition yyset_in (f : option FILEptr) (sc : option nat) : Prog unit :=
  with_scanner sc (fun so => mkScannerObj (yy_extra_bound so) (yy_flex_debug so) f).

(** [yylex_destroy(scanner)] *)
Definition yylex_destroy (sc : nat) : Prog unit :=
  fun m =>
    let w := world m in
    match w_scanners w !! sc with
    | None => Undefined
    | Some _ =>
        Returned tt
          (mkMachine (self m)
             (set_w_scanners (delete sc (w_scanners w)) (w_next_scanner w) w))
    end.

(** ** The diagnostic sink: lines written to [std::cerr] *)

Definition cerr (l : string) : Prog unit :=
  modify_world (fun w => set_w_stderr (w_stderr w ++ [l]) w).

(** [error(const location & l, const std::string & m)] *)
Definition error_at (l : location) (msg : string) : Prog unit :=
  cerr ("line " +:+ pretty (line l)) ;;
  cerr (" : " +:+ msg).

(** [error(const std::string & m)] *)
Definition error (msg : string) : Prog unit :=
  cerr (" : " +:+ msg).

(** ** [scan_begin] and [scan_end] *)

(** [filepath.empty() || filepath == "-"] *)
Definition is_stdin_path (path : string) : bool :=
  String.eqb path "" || String.eqb path "-".

Definition scan_begin : Prog unit :=
  yylex_init ;;
  sc <- get_self scanner ;;
  yyset_extra sc ;;
  ts <- get_self trace_scanning ;;
  sc <- get_self scanner ;;
  yyset_debug (if ts then 1 else 0) sc ;;
  fp <- get_self filepath ;;
  (if is_stdin_path fp
   then modify_self (set_input_file (Some stdin))
   else
     f <- fopen_r fp ;;
     modify_self (set_input_file f) ;;
     inf <- get_self input_file ;;
     match inf with
     | None =>
         e <- get_world w_errno ;;
         error ("Cannot open " +:+ fp +:+ ": " +:+ strerror e) ;;
         exit EXIT_FAILURE
     | Some _ => ret tt
     end) ;;
  inf <- get_self input_file ;;
  sc <- get_self scanner ;;
  yyset_in inf sc.

Definition scan_end : Prog unit :=
  inf <- get_self input_file ;;
  match inf with
  | Some (stream h) => fclose (stream h)
  | Some stdin => ret tt
  | None => ret tt
  end ;;
  modify_self (set_input_file None) ;;
  sc <- get_self scanner ;;
  match sc with
  | Some i =>
      yylex_destroy i ;;
      modify_self (set_scanner None)
  | None => ret tt
  end.

(** ** Heap objects *)

(** [new VCDFile()] *)
Definition new_VCDFile : Prog addr :=
  fun m =>
    let w := world m in
    let a := w_next_obj w in
    Returned a
      (mkMachine (self m)
         (set_w_heap (<[a := fresh_VCDFile]> (w_files w)) (w_scope_objs w)
            (S a) w)).

(** [new VCDScope] *)
Definition new_VCDScope : Prog addr :=
  fun m =>
    let w := world m in
    let a := w_next_obj w in
    Returned a
      (mkMachine (self m)
         (set_w_heap (w_files w) (<[a := fresh_VCDScope]> (w_scope_objs w))
            (S a) w)).

(** Dereference of a [VCDFile*] for reading. *)
Definition load_file (f : option addr) : Prog VCDFile :=
  fun m =>
    match f with
    | None => Undefined
    | Some a =>
        match w_files (world m) !! a with
        | Some o => Returned o m
        | None => Undefined
        end
    end.

(** Update through a [VCDFile*]. *)
Definition update_file (f : option addr) (g : VCDFile -> VCDFile) : Prog unit :=
  o <- load_file f ;;
  modify_world (fun w =>
    match f with
    | Some a =>
        set_w_heap (<[a := g o]> (w_files w)) (w_scope_objs w) (w_next_obj w) w
    | None => w
    end).

(** Update through a [VCDScope*]. *)
Definition update_scope (p : option addr) (g : VCDScope -> VCDScope) : Prog unit :=
  fun m =>
    let w := world m in
    match p with
    | None => Undefined
    | Some a =>
        match w_scope_objs w !! a with
        | None => Undefined
        | Some o =>
            Returned tt
              (mkMachine (self m)
                 (set_w_heap (w_files w) (<[a := g o]> (w_scope_objs w))
                    (w_next_obj w) w))
        end
    end.

Definition set_root_scope (r : option addr) (o : VCDFile) : VCDFile :=
  mkVCDFile r (date o) (version o) (file_scopes o) (file_signals o)
    (file_times o).

Definition set_name (n : string) (o : VCDScope) : VCDScope :=
  mkVCDScope n (type o) (parent o) (children o) (signals o).

Definition set_type (t : VCDScopeType) (o : VCDScope) : VCDScope :=
  mkVCDScope (name o) (Some t) (parent o) (children o) (signals o).

(** [this->fh->root_scope], read. *)
Definition fh_root_scope : Prog (option addr) :=
  f <- get_self fh ;;
  o <- load_file f ;;
  ret (root_scope o).

(** Modelled from the spec: [VCDFile::add_scope], defined in VCDFile.cpp,
    which registers a scope with the Trace (the root is attached as a
    child of the Trace, every later scope is appended after it). *)
Definition add_scope (f : option addr) (s : addr) : Prog unit :=
  update_file f (fun o =>
    mkVCDFile (root_scope o) (date o) (version o) (file_scopes o ++ [s])
      (file_signals o) (file_times o)).

(** Modelled from the spec: [delete] of a [VCDFile*], whose destructor is
    defined in VCDFile.cpp.  The Trace owns the scopes registered with
    it: they are freed with it.  [delete nullptr] does nothing; deleting a
    dangling pointer is undefined. *)
Definition delete_VCDFile (f : option addr) : Prog unit :=
  match f with
  | None => ret tt
  | Some a =>
      o <- load_file f ;;
      modify_world (fun w =>
        set_w_heap (delete a (w_files w))
          (foldr delete (w_scope_objs w) (file_scopes o)) (w_next_obj w) w)
  end.

(** ** The scope stack, a [std::stack<VCDScope*>] (top first)

    The driver pushes only the root it has just written through, so the
    pointer is never null when [push] is reached; [top] and [pop] of an
    empty stack are undefined. *)

Definition scopes_push (p : option addr) : Prog unit :=
  match p with
  | Some a => modify_self (fun s => set_scopes (a :: scopes s) s)
  | None => undefined
  end.

Definition scopes_top : Prog addr :=
  st <- get_self scopes ;;
  match st with
  | a :: _ => ret a
  | [] => undefined
  end.

Definition scopes_pop : Prog unit :=
  st <- get_self scopes ;;
  match st with
  | _ :: rest => modify_self (set_scopes rest)
  | [] => undefined
  end.

(** ** The grammar engine *)

(** What the semantic actions of the grammar mutate: the Trace under
    construction and the scope objects, the scope stack, the current-time
    cursor and the location tracker. *)
Record GrammarState := mkGrammarState {
  gs_trace : VCDFile;
  gs_scope_objs : gmap addr VCDScope;
  gs_next_obj : addr;
  gs_scopes : list addr;
  gs_current_time : VCDTime;
  gs_loc : location
}.

Record GrammarIn := mkGrammarIn {
  gi_input : string;
  gi_flex_debug : Z;
  gi_debug_level : Z;
  gi_filepath : string;
  gi_start_time : VCDTime;
  gi_end_time : VCDTime;
  gi_state : GrammarState
}.

Record GrammarOut := mkGrammarOut {
  go_result : Z;
  go_state : GrammarState;
  go_rest : string;
  go_diag : list string
}.

(** Modelled from the spec: the tokenizer [yylex] and the grammar engine
    [VCDParser::parser::parse], generated from VCDScanner.l and
    VCDParser.ypp.  Following sections 4.1 and 4.2 of the spec, one run
    reads characters from the input source, is given the two debug levels
    and the read-only members of the session, mutates only the [GrammarState]
    and writes diagnostics; it yields [0] on acceptance and a non-zero
    code on failure. *)
Variable grammar : GrammarIn -> GrammarOut.

(** Characters still unread on a stream, if the stream is open. *)
Definition unread (w : World) (f : FILEptr) : option string :=
  match f with
  | stdin => if w_stdin_open w then Some (w_stdin w) else None
  | stream h => w_streams w !! h
  end.

Definition set_unread (f : FILEptr) (rest : string) (w : World) : World :=
  match f with
  | stdin => set_w_stdin rest w
  | stream h => set_w_streams (<[h := rest]> (w_streams w)) (w_next_stream w) w
  end.

(** Construction of a [VCDParser::parser] over this session, then
    [parser.set_debug_level(level)] and [parser.parse()]: the engine pulls
    its tokens through [get_next_token], that is from [yylex(scanner)],
    which reads the scanner's input stream. *)
Definition parser_parse (level : Z) : Prog Z :=
  fun m =>
    let s := self m in
    let w := world m in
    match scanner s with
    | None => Undefined
    | Some sc =>
    match w_scanners w !! sc with
    | None => Undefined
    | Some so =>
    match yy_in so with
    | None => Undefined
    | Some f =>
    match unread w f with
    | None => Undefined
    | Some text =>
    match fh s with
    | None => Undefined
    | Some fa =>
    match w_files w !! fa with
    | None => Undefined
    | Some tr =>
        let out :=
          grammar
            {| gi_input := text;
               gi_flex_debug := yy_flex_debug so;
               gi_debug_level := level;
               gi_filepath := filepath s;
               gi_start_time := start_time s;
               gi_end_time := end_time s;
               gi_state :=
                 {| gs_trace := tr;
                    gs_scope_objs := w_scope_objs w;
                    gs_next_obj := w_next_obj w;
                    gs_scopes := scopes s;
                    gs_current_time := current_time s;
                    gs_loc := loc s |} |} in
        let st := go_state out in
        Returned (go_result out)
          (mkMachine
             (set_loc (gs_loc st)
                (set_current_time (gs_current_time st)
                   (set_scopes (gs_scopes st) s)))
             (set_w_stderr (w_stderr w ++ go_diag out)
                (set_w_heap (<[fa := gs_trace st]> (w_files w))
                   (gs_scope_objs st) (gs_next_obj st)
                   (set_unread f (go_rest out) w))))
    end end end end end end.

(** ** [parse_file] *)

Definition parse_file (filepath_arg : string) : Prog (option addr) :=
  modify_self (set_filepath filepath_arg) ;;
  modify_self (set_current_time nl_zero) ;;
  scan_begin ;;
  f <- new_VCDFile ;;
  modify_self (set_fh (Some f)) ;;
  tr <- get_self fh ;;
  (* the first root scope *)
  r <- new_VCDScope ;;
  f <- get_self fh ;;
  update_file f (set_root_scope (Some r)) ;;
  r <- fh_root_scope ;;
  update_scope r (set_name "$root") ;;
  r <- fh_root_scope ;;
  update_scope r (set_type VCD_SCOPE_ROOT) ;;
  r <- fh_root_scope ;;
  scopes_push r ;;
  (* the second root scope *)
  r <- new_VCDScope ;;
  f <- get_self fh ;;
  update_file f (set_root_scope (Some r)) ;;
  r <- fh_root_scope ;;
  update_scope r (set_name "") ;;
  r <- fh_root_scope ;;
  update_scope r (set_type VCD_SCOPE_ROOT) ;;
  r <- fh_root_scope ;;
  scopes_push r ;;
  t <- scopes_top ;;
  add_scope tr t ;;
  level <- get_self trace_parsing ;;
  result <- parser_parse (Z.b2z level) ;;
  scopes_pop ;;
  scan_end ;;
  if result =? 0
  then
    modify_self (set_fh None) ;;
    ret tr
  else
    (* [tr = nullptr] only clears the local variable *)
    f <- get_self fh ;;
    delete_VCDFile f ;;
    ret None.

(** ** What one call of [parse_file] amounts to

    The definitions below name the pieces of the state that a call
    builds; the lemmas [parse_file_cannot_open], [parse_file_stdin] and
    [parse_file_named] show that [parse_file] computes exactly these. *)

(** A root scope after its [name] and [type] have been assigned. *)
Definition root_named (n : string) : VCDScope :=
  {| name := n; type := Some VCD_SCOPE_ROOT; parent := None;
     children := []; signals := [] |}.

(** The state handed to the grammar engine.  With [a] the next free
    address, the Trace is allocated at [a], the root named ["$root"] at
    [S a] and the root named [""] at [S (S a)]; both roots are on the
    stack and the second is the Trace's [root_scope]. *)
Definition initial_grammar_state (m : Machine) : GrammarState :=
  let a := w_next_obj (world m) in
  {| gs_trace :=
       {| root_scope := Some (S (S a)); date := ""; version := "";
          file_scopes := [S (S a)]; file_signals := []; file_times := [] |};
     gs_scope_objs :=
       <[S (S a) := root_named ""]>
         (<[S a := root_named "$root"]> (w_scope_objs (world m)));
     gs_next_obj := S (S (S a));
     gs_scopes := S (S a) :: S a :: scopes (self m);
     gs_current_time := nl_zero;
     gs_loc := loc (self m) |}.

Definition grammar_input (path text : string) (m : Machine) : GrammarIn :=
  {| gi_input := text;
     gi_flex_debug := if trace_scanning (self m) then 1 else 0;
     gi_debug_level := Z.b2z (trace_parsing (self m));
     gi_filepath := path;
     gi_start_time := start_time (self m);
     gi_end_time := end_time (self m);
     gi_state := initial_grammar_state m |}.

(** The reason why [fopen] cannot open a path, if it cannot. *)
Definition open_errno (path : string) (w : World) : option Z :=
  match w_fs w !! path with
  | Some (Readable _) => None
  | Some (Unopenable e) => Some e
  | None => Some ENOENT
  end.

(** The session and the world at the moment [scan_begin] calls [exit]. *)
Definition session_at_exit (path : string) (m : Machine) : VCDFileParser :=
  {| filepath := path;
     trace_scanning := trace_scanning (self m);
     trace_parsing := trace_parsing (self m);
     start_time := start_time (self m);
     end_time := end_time (self m);
     fh := fh (self m);
     scopes := scopes (self m);
     current_time := nl_zero;
     loc := loc (self m);
     scanner := Some (w_next_scanner (world m));
     input_file := None |}.

Definition world_at_exit (path : string) (e : Z) (m : Machine) : World :=
  let w := world m in
  let sc := w_next_scanner w in
  set_w_stderr
    (w_stderr w ++ [" : " +:+ ("Cannot open " +:+ path +:+ ": " +:+ strerror e)])
    (set_w_scanners
       (<[sc := mkScannerObj true (if trace_scanning (self m) then 1 else 0) None]>
          (w_scanners w))
       (S sc) (set_w_errno e w)).

(** The session when [parse_file] returns, [rest] being the scope stack
    below the one entry that [parse_file] pops. *)
Definition session_on_return (path : string) (m : Machine)
    (out : GrammarOut) (rest : list addr) : VCDFileParser :=
  {| filepath := path;
     trace_scanning := trace_scanning (self m);
     trace_parsing := trace_parsing (self m);
     start_time := start_time (self m);
     end_time := end_time (self m);
     fh := if go_result out =? 0 then None else Some (w_next_obj (world m));
     scopes := rest;
     current_time := gs_current_time (go_state out);
     loc := gs_loc (go_state out);
     scanner := None;
     input_file := None |}.

(** The heap when [parse_file] returns: on acceptance the Trace stays at
    its address, on failure it is freed with the scopes registered in it. *)
Definition heap_on_return (m : Machine) (out : GrammarOut) (w : World) : World :=
  let a := w_next_obj (world m) in
  let st := go_state out in
  if go_result out =? 0
  then set_w_heap (<[a := gs_trace st]> (w_files (world m)))
         (gs_scope_objs st) (gs_next_obj st) w
  else set_w_heap (delete a (w_files (world m)))
         (foldr delete (gs_scope_objs st) (file_scopes (gs_trace st)))
         (gs_next_obj st) w.

Definition world_on_return_stdin (m : Machine) (out : GrammarOut) : World :=
  let w := world m in
  let sc := w_next_scanner w in
  heap_on_return m out
    (set_w_stderr (w_stderr w ++ go_diag out)
       (set_w_scanners (delete sc (w_scanners w)) (S sc)
          (set_w_stdin (go_rest out) w))).

Definition world_on_return_named (m : Machine) (out : GrammarOut) : World :=
  let w := world m in
  let sc := w_next_scanner w in
  let h := w_next_stream w in
  heap_on_return m out
    (set_w_stderr (w_stderr w ++ go_diag out)
       (set_w_scanners (delete sc (w_scanners w)) (S sc)
          (set_w_streams (delete h (w_streams w)) (S h) w))).

(** The characters the engine will read, when the input source can be
    acquired: standard input for the two special paths, the content of
    the named file otherwise. *)
Definition source_text (path : string) (w : World) : option string :=
  if is_stdin_path path
  then (if w_stdin_open w then Some (w_stdin w) else None)
  else
    match w_fs w !! path with
    | Some (Readable content) => Some content
    | _ => None
    end.

Definition world_on_return (path : string) (m : Machine)
    (out : GrammarOut) : World :=
  if is_stdin_path path
  then world_on_return_stdin m out
  else world_on_return_named m out.

(** ** Observations used in the statements *)

(** The same machine with the two debug toggles set by the caller. *)
Definition with_toggles (ts tp : bool) (m : Machine) : Machine :=
  mkMachine (set_trace_scanning ts (set_trace_parsing tp (self m))) (world m).

(** What the caller of [parse_file] gets: the Trace behind the returned
    pointer together with the scope objects, a failure ([nullptr]), the
    end of the process, or undefined behaviour. *)
Inductive ParseResult :=
  | GotTrace (a : addr) (t : VCDFile) (objs : gmap addr VCDScope)
  | GotDangling (a : addr)
  | GotFailure
  | ProcessExit (status : Z)
  | NoResult.

Definition result_of (o : Outcome (option addr)) : ParseResult :=
  match o with
  | Returned (Some a) m =>
      match w_files (world m) !! a with
      | Some t => GotTrace a t (w_scope_objs (world m))
      | None => GotDangling a
      end
  | Returned None _ => GotFailure
  | Exited st _ => ProcessExit st
  | Undefined => NoResult
  end.

(** Modelled from the spec: the effect of the two debug levels inside the
    generated scanner and parser, which are absent here.  Section 6 of
    the spec gives the contract: the toggles "only affect diagnostic
    output, never parse results".  For an engine this reads: changing
    [gi_flex_debug] and [gi_debug_level] changes at most [go_diag]. *)
Definition debug_insensitive (g : GrammarIn -> GrammarOut) : Prop :=
  forall (i : GrammarIn) (d1 d2 : Z),
    let i' := mkGrammarIn (gi_input i) d1 d2 (gi_filepath i)
                (gi_start_time i) (gi_end_time i) (gi_state i) in
    go_result (g i') = go_result (g i) /\
    go_state (g i') = go_state (g i) /\
    go_rest (g i') = go_rest (g i).

(** An engine run is balanced when it pops every scope it pushes. *)
Definition balanced (g : GrammarIn -> GrammarOut) (i : GrammarIn) : Prop :=
  gs_scopes (go_state (g i)) = gs_scopes (gi_state i).

(** An engine never lowers the allocation counter it is given: the
    objects it creates get addresses above those already handed out. *)
Definition allocation_monotone (g : GrammarIn -> GrammarOut) : Prop :=
  forall i : GrammarIn,
    (gs_next_obj (gi_state i) <= gs_next_obj (go_state (g i)))%nat.

(** The state in which the engine is started: time zero, and an empty
    Trace whose [root_scope] and only registered scope is the scope on
    top of the stack, a root named [""]; directly below it on the stack
    lies a root named ["$root"] that the Trace does not know. *)
Definition engine_start_invariant (i : GrammarIn) : Prop :=
  let st := gi_state i in
  exists top below rest,
    gs_scopes st = top :: below :: rest /\
    top <> below /\
    gs_trace st =
      {| root_scope := Some top; date := ""; version := "";
         file_scopes := [top]; file_signals := []; file_times := [] |} /\
    gs_scope_objs st !! top = Some (root_named "") /\
    gs_scope_objs st !! below = Some (root_named "$root") /\
    gs_current_time st = nl_zero.

End Driver.

Arguments Returned {VCDTime A} a m.
Arguments Exited {VCDTime A} status m.
Arguments Undefined {VCDTime A}.

(** * The standalone printer

    [print_scope_signals] and [traverse_scope] write to [std::cout] and
    do nothing else: each is modelled by the text it writes. *)

Definition TAB : string := String (Ascii.ascii_of_N 9) "".
Definition NL : string := String (Ascii.ascii_of_N 10) "".

(** The body of the loop of [print_scope_signals]: a tab, the hash, a
    tab, the reference, the bit range if any, and [std::endl]. *)
Definition signal_line (signal : VCDSignal) : string :=
  TAB +:+ hash signal +:+ TAB +:+ reference signal +:+
  (if 1 <? size signal
   then "[" +:+ pretty (lindex signal) +:+ ":" +:+ pretty (rindex signal) +:+ "]"
   else if 0 <=? lindex signal
        then "[" +:+ pretty (lindex signal) +:+ "]"
        else "") +:+
  NL.

Definition print_scope_signals (scope : VCDScope) : string :=
  foldr (fun signal rest => signal_line signal +:+ rest) "" (signals scope).

(** What a printing function produces: the text it wrote, a fault (a
    dangling scope pointer was dereferenced), or nothing yet because the
    recursion budget of the model ran out. *)
Inductive Printed :=
  | Text (s : string)
  | Fault
  | OutOfFuel.

(** Output of [a] followed by output of [b]. *)
Definition seq_print (a b : Printed) : Printed :=
  match a with
  | Text s =>
      match b with
      | Text t => Text (s +:+ t)
      | Fault => Fault
      | OutOfFuel => OutOfFuel
      end
  | Fault => Fault
  | OutOfFuel => OutOfFuel
  end.

(** [local_parent]: the parent path, a dot if that path is not empty,
    and the name of the scope. *)
Definition qualify (parent scope_name : string) : string :=
  (if (0 <? String.length parent)%nat then parent +:+ "." else parent)
  +:+ scope_name.

(** The names of a path without the empty names at its front. *)
Fixpoint drop_leading_empty (names : list string) : list string :=
  match names with
  | "" :: rest => drop_leading_empty rest
  | _ => names
  end.

(** [traverse_scope(parent, scope)] over the heap [objs] of scope
    objects.  [fuel] bounds the depth of the recursion. *)
Fixpoint traverse_scope (fuel : nat) (objs : gmap nat VCDScope)
    (parent : string) (scope : nat) : Printed :=
  match fuel with
  | O => OutOfFuel
  | S fuel' =>
      match objs !! scope with
      | None => Fault
      | Some o =>
          let local_parent := qualify parent (name o) in
          seq_print
            (Text ("Scope: " +:+ local_parent +:+ NL +:+ print_scope_signals o))
            (foldr
               (fun child rest =>
                  seq_print
                    (seq_print (Text ("Child:" +:+ NL))
                       (traverse_scope fuel' objs local_parent child))
                    rest)
               (Text "") (children o))
      end
  end.

(** A scope hierarchy as a tree of scope objects; [shaped objs a t]
    says that the heap holds the tree [t] at address [a]. *)
#[warnings="-register-all"]
Inductive ScopeTree :=
  | ScopeNode (o : VCDScope) (kids : list ScopeTree).

#[warnings="-register-all"]
Inductive shaped (objs : gmap nat VCDScope) : nat -> ScopeTree -> Prop :=
  | shaped_node (a : nat) (o : VCDScope) (kids : list ScopeTree) :
      objs !! a = Some o ->
      Forall2 (shaped objs) (children o) kids ->
      shaped objs a (ScopeNode o kids).

Fixpoint depth (t : ScopeTree) : nat :=
  match t with
  | ScopeNode _ kids => S (foldr (fun k d => Nat.max (depth k) d) O kids)
  end.

(** The text of a tree: the header and signals of the node, then each
    child after a ["Child:"] line, with the qualified name of the node
    as the children's parent path. *)
Fixpoint render (parent : string) (t : ScopeTree) : string :=
  match t with
  | ScopeNode o kids =>
      let local_parent := qualify parent (name o) in
      ("Scope: " +:+ local_parent +:+ NL +:+ print_scope_signals o) +:+
      foldr (fun k rest => (("Child:" +:+ NL) +:+ render local_parent k) +:+ rest)
        "" kids
  end.

(** * The generator of test inputs *)

Definition INT_MAX : Z := 2147483647.
Definition INT_MIN : Z := -2147483648.

(** The value of an [int] expression, if it does not overflow. *)
Definition int_value (z : Z) : option Z :=
  if (INT_MIN <=? z) && (z <=? INT_MAX) then Some z else None.

(** [(char)('!' + i)]: the sum is computed in [int]; the conversion to
    [char] keeps its low eight bits. *)
Definition id_char (i : Z) : option Ascii.ascii :=
  z ← int_value (33 + i);
  Some (Ascii.ascii_of_N (Z.to_N (z mod 256))).

(** The values of [i] in [for (int i = 0; i < n; ++i)]. *)
Definition int_range (n : Z) : list Z :=
  map Z.of_nat (seq 0 (Z.to_nat n)).

Definition var_line (i : Z) : option string :=
  c ← id_char i;
  Some ("$var wire 1 " +:+ String c "" +:+ " sig" +:+ pretty i +:+ " $end" +:+ NL).

Definition dump_line (i : Z) : option string :=
  c ← id_char i;
  Some ("0" +:+ String c "" +:+ NL).

Definition change_line (t i : Z) : option string :=
  s ← int_value (t + i);
  c ← id_char i;
  Some ((if Z.rem s 2 =? 0 then "1" else "0") +:+ String c "" +:+ NL).

Definition time_block (num_signals t : Z) : option string :=
  ts ← int_value (t * 10);
  changes ← mapM (change_line t) (int_range num_signals);
  Some ("#" +:+ pretty ts +:+ NL +:+ String.concat "" changes).

(** Everything [generate_test_vcd] writes to its stream, or [None] when
    a signed overflow makes the behaviour undefined. *)
Definition generate_test_vcd_text (num_signals num_timestamps : Z)
    : option string :=
  vars ← mapM var_line (int_range num_signals);
  dumps ← mapM dump_line (int_range num_signals);
  blocks ← mapM (time_block num_signals) (int_range num_timestamps);
  Some ("$date" +:+ NL +:+
        "   Test VCD file for multithreading" +:+ NL +:+
        "$end" +:+ NL +:+
        "$version" +:+ NL +:+
        "   VCD Generator 1.0" +:+ NL +:+
        "$end" +:+ NL +:+
        "$timescale 1ns $end" +:+ NL +:+
        "$scope module testbench $end" +:+ NL +:+
        String.concat "" vars +:+
        "$upscope $end" +:+ NL +:+
        "$enddefinitions $end" +:+ NL +:+
        "$dumpvars" +:+ NL +:+
        String.concat "" dumps +:+
        "$end" +:+ NL +:+
        String.concat "" blocks).


(** ** Concrete instances on which the statements are exercised *)

(** The finite values of an IEEE binary64 [double] are the integer
    multiples [k * 2^-1074] with [|k| <= (2^53 - 1) * 2^2045]; a value is
    represented here by its [k].  The range is symmetric: [lowest()] is
    [-max()]. *)
Definition binary64_limits : NumericLimits Z :=
  {| nl_zero := 0;
     nl_max := (2 ^ 53 - 1) * 2 ^ 2045;
     nl_lowest := - ((2 ^ 53 - 1) * 2 ^ 2045);
     nl_neg := Z.opp;
     nl_le := Z.leb |}.

(** A 64-bit two's-complement integer, with wrap-around negation. *)
Definition int64_limits : NumericLimits Z :=
  {| nl_zero := 0;
     nl_max := 2 ^ 63 - 1;
     nl_lowest := - 2 ^ 63;
     nl_neg := fun x => (- x + 2 ^ 63) mod 2 ^ 64 - 2 ^ 63;
     nl_le := Z.leb |}.

Definition posix_strerror (e : Z) : string :=
  if e =? 2 then "No such file or directory"
  else if e =? 13 then "Permission denied"
  else "Unknown error".

(** A stand-in for the generated engine: it accepts a text that starts
    with a dollar sign, reads the whole input, leaves the Trace and the
    stack as it found them, and writes one line per active debug level
    and one per syntax error. *)
Definition stub_grammar (i : @GrammarIn Z) : @GrammarOut Z :=
  let ok := String.prefix "$" (gi_input i) in
  {| go_result := if ok then 0 else 1;
     go_state := gi_state i;
     go_rest := "";
     go_diag :=
       (if gi_flex_debug i =? 0 then [] else ["--scanning"]) ++
       (if gi_debug_level i =? 0 then [] else ["--parsing"]) ++
       (if ok then [] else [" : syntax error"]) |}.

Definition sample_world : @World Z :=
  {| w_fs :=
       <["a.vcd" := Readable "$date today $end"]>
         (<["bad.vcd" := Readable "garbage"]>
            (<["locked.vcd" := Unopenable 13]> ∅));
     w_streams := ∅;
     w_next_stream := 0%nat;
     w_stdin := "$version 1 $end";
     w_stdin_open := true;
     w_errno := 0;
     w_scanners := ∅;
     w_next_scanner := 0%nat;
     w_files := ∅;
     w_scope_objs := ∅;
     w_next_obj := 0%nat;
     w_stderr := [] |}.

(** A freshly constructed session in the sample world. *)
Definition sample_machine : @Machine Z :=
  mkMachine (@VCDFileParser_ctor Z binary64_limits None) sample_world.

(** A session in the middle of a parse of standard input: its scanner
    is live and reads [stdin]. *)
Definition sample_stdin_machine : @Machine Z :=
  mkMachine
    (set_input_file (Some stdin)
       (set_scanner (Some 0%nat) (set_filepath "-" (self sample_machine))))
    (set_w_scanners (<[0%nat := mkScannerObj true 0 (Some stdin)]> ∅) 1%nat
       sample_world).

(** A fresh session whose [filepath] member names a readable file, as
    [parse_file] sets it before it calls [scan_begin]. *)
Definition sample_named_machine : @Machine Z :=
  mkMachine (set_filepath "a.vcd" (self sample_machine)) sample_world.

#[local] Existing Instance binary64_limits.

(** The driver specialised to the sample instances. *)
Definition sample_parse_file (path : string) : @Prog Z (option addr) :=
  @parse_file Z binary64_limits posix_strerror stub_grammar path.

(** The sample session after a first, successful parse of ["a.vcd"]. *)
Definition sample_machine_after_a : @Machine Z :=
  match sample_parse_file "a.vcd" sample_machine with
  | Returned _ m1 => m1
  | _ => sample_machine
  end.

(** An engine that agrees with [stub_grammar] wherever the stack holds
    at least two scopes, and gives up with code 7 elsewhere. *)
Definition picky_grammar (i : @GrammarIn Z) : @GrammarOut Z :=
  match gs_scopes (gi_state i) with
  | _ :: _ :: _ => stub_grammar i
  | _ =>
      {| go_result := 7; go_state := gi_state i; go_rest := gi_input i;
         go_diag := [] |}
  end.

(** A small hierarchy on the heap: the unnamed root at 10, the module
    [top] at 11 with three signals, and its instance [u1] at 12. *)
Definition sample_u1 : VCDScope :=
  {| name := "u1"; type := Some VCD_SCOPE_MODULE; parent := Some 11%nat;
     children := []; signals := [mkVCDSignal "#" "q" 1 (-1) (-1)] |}.

Definition sample_top : VCDScope :=
  {| name := "top"; type := Some VCD_SCOPE_MODULE; parent := Some 10%nat;
     children := [12%nat];
     signals := [mkVCDSignal "!" "clk" 1 (-1) (-1);
                 mkVCDSignal "$" "bus" 8 7 0;
                 mkVCDSignal "%" "bit" 1 3 3] |}.

Definition sample_root : VCDScope :=
  {| name := ""; type := Some VCD_SCOPE_ROOT; parent := None;
     children := [11%nat]; signals := [] |}.

Definition sample_scopes : gmap nat VCDScope :=
  <[10%nat := sample_root]>
    (<[11%nat := sample_top]> (<[12%nat := sample_u1]> ∅)).

Definition sample_tree : ScopeTree :=
  ScopeNode sample_root [ScopeNode sample_top [ScopeNode sample_u1 []]].

(** Two scopes that are each other's child. *)
Definition looping_scopes : gmap nat VCDScope :=
  <[0%nat := mkVCDScope "a" (Some VCD_SCOPE_MODULE) None [1%nat] []]>
    (<[1%nat := mkVCDScope "b" (Some VCD_SCOPE_MODULE) None [0%nat] []]> ∅).






(** * Properties of the driver *)

Section DriverFacts.

Context {VCDTime : Type} `{NumericLimits VCDTime}.
Variable strerror : Z -> string.
Variable grammar : @GrammarIn VCDTime -> @GrammarOut VCDTime.

(** Symbolic execution of driver code: unfold the monad, the primitives
    and the record accessors, and resolve the lookups of keys that were
    just written. *)
Ltac run :=
  cbv beta iota zeta delta
    [parse_file scan_begin scan_end parser_parse bind ret exit undefined
     get_self get_world modify_self modify_world
     fopen_r fclose yylex_init with_scanner yyset_extra yyset_debug yyset_in
     yylex_destroy cerr error error_at
     new_VCDFile new_VCDScope load_file update_file update_scope
     fh_root_scope add_scope delete_VCDFile scopes_push scopes_top scopes_pop
     unread set_unread
     self world
     filepath trace_scanning trace_parsing start_time end_time fh scopes
     current_time loc scanner input_file
     set_filepath set_trace_scanning set_trace_parsing set_fh set_scopes
     set_current_time set_loc set_scanner set_input_file
     w_fs w_streams w_next_stream w_stdin w_stdin_open w_errno w_scanners
     w_next_scanner w_files w_scope_objs w_next_obj w_stderr
     set_w_streams set_w_stdin set_w_stdin_open set_w_errno set_w_scanners
     set_w_heap set_w_stderr
     yy_extra_bound yy_flex_debug yy_in
     root_scope date version file_scopes file_signals file_times
     name type parent children signals
     fresh_VCDFile fresh_VCDScope set_root_scope set_name set_type
     gs_trace gs_scope_objs gs_next_obj gs_scopes gs_current_time gs_loc
     go_result go_state go_rest go_diag
     root_named initial_grammar_state grammar_input open_errno
     session_at_exit world_at_exit session_on_return heap_on_return
     world_on_return_stdin world_on_return_named].

Ltac exec := repeat (run; rewrite ?lookup_insert_eq); cbn [app].

Ltac explode m :=
  destruct m as [[fp ts tp st et f sc ct l scn inf]
                 [fs str nstr sin sino en scs nsc fls sobj nobj serr]].

Ltac tidy_maps :=
  rewrite ?insert_insert_eq, ?delete_insert_eq, ?insert_insert_eq.

Lemma parse_file_cannot_open (path : string) (m : @Machine VCDTime) (e : Z) :
  is_stdin_path path = false ->
  open_errno path (world m) = Some e ->
  parse_file strerror grammar path m =
    Exited EXIT_FAILURE
      (mkMachine (session_at_exit path m) (world_at_exit strerror path e m)).
Proof.
  intros Hp He. explode m. revert He. exec. rewrite Hp.
  destruct (fs !! path) as [[c | e'] |]; intros He; try discriminate;
    injection He as <-; exec; tidy_maps; reflexivity.
Qed.

Lemma parse_file_stdin_closed (path : string) (m : @Machine VCDTime) :
  is_stdin_path path = true ->
  w_stdin_open (world m) = false ->
  parse_file strerror grammar path m = Undefined.
Proof.
  intros Hp Ho. explode m. revert Ho. exec. rewrite Hp. intros ->.
  exec. reflexivity.
Qed.

Lemma parse_file_stdin (path : string) (m : @Machine VCDTime) :
  is_stdin_path path = true ->
  w_stdin_open (world m) = true ->
  parse_file strerror grammar path m =
    let out := grammar (grammar_input path (w_stdin (world m)) m) in
    match gs_scopes (go_state out) with
    | [] => Undefined
    | _ :: rest =>
        Returned
          (if go_result out =? 0 then Some (w_next_obj (world m)) else None)
          (mkMachine (session_on_return path m out rest)
             (world_on_return_stdin m out))
    end.
Proof.
  intros Hp Ho. explode m. revert Ho. exec. rewrite Hp. intros ->.
  exec. tidy_maps.
  destruct (grammar _) as [res [tr' so' no' [|top rest] ct' l'] rest' diag];
    exec; [reflexivity |].
  destruct (res =? 0); exec; tidy_maps; reflexivity.
Qed.

Lemma parse_file_named (path content : string) (m : @Machine VCDTime) :
  is_stdin_path path = false ->
  w_fs (world m) !! path = Some (Readable content) ->
  parse_file strerror grammar path m =
    let out := grammar (grammar_input path content m) in
    match gs_scopes (go_state out) with
    | [] => Undefined
    | _ :: rest =>
        Returned
          (if go_result out =? 0 then Some (w_next_obj (world m)) else None)
          (mkMachine (session_on_return path m out rest)
             (world_on_return_named m out))
    end.
Proof.
  intros Hp Hf. explode m. revert Hf. exec. rewrite Hp. intros ->.
  exec. tidy_maps.
  destruct (grammar _) as [res [tr' so' no' [|top rest] ct' l'] rest' diag];
    exec; [reflexivity |].
  destruct (res =? 0); exec; tidy_maps; reflexivity.
Qed.

Lemma is_stdin_path_spec (path : string) :
  is_stdin_path path = true <-> path = "" \/ path = "-".
Proof.
  unfold is_stdin_path. rewrite orb_true_iff, !String.eqb_eq. reflexivity.
Qed.

Lemma is_stdin_path_false (path : string) :
  is_stdin_path path = false <-> path <> "" /\ path <> "-".
Proof.
  unfold is_stdin_path. rewrite orb_false_iff, !String.eqb_neq. reflexivity.
Qed.

(** Whenever the input source can be acquired, [parse_file] runs the
    engine once on the state built by the driver and, unless the engine
    has emptied the scope stack, returns. *)
Lemma parse_file_returns (path text : string) (m : @Machine VCDTime) :
  source_text path (world m) = Some text ->
  parse_file strerror grammar path m =
    let out := grammar (grammar_input path text m) in
    match gs_scopes (go_state out) with
    | [] => Undefined
    | _ :: rest =>
        Returned
          (if go_result out =? 0 then Some (w_next_obj (world m)) else None)
          (mkMachine (session_on_return path m out rest)
             (world_on_return path m out))
    end.
Proof.
  unfold source_text, world_on_return.
  destruct (is_stdin_path path) eqn:Hp.
  - destruct (w_stdin_open (world m)) eqn:Ho; [| discriminate].
    intros [= <-]. now apply parse_file_stdin.
  - destruct (w_fs (world m) !! path) as [[c | e] |] eqn:Hf; try discriminate.
    intros [= <-]. now apply parse_file_named.
Qed.

(** The heap of Traces when [parse_file] returns. *)
Lemma files_on_return (path : string) (m : @Machine VCDTime)
    (out : @GrammarOut VCDTime) :
  w_files (world_on_return path m out) =
    if go_result out =? 0
    then <[w_next_obj (world m) := gs_trace (go_state out)]> (w_files (world m))
    else delete (w_next_obj (world m)) (w_files (world m)).
Proof.
  unfold world_on_return, world_on_return_stdin, world_on_return_named,
    heap_on_return.
  destruct (is_stdin_path path), (go_result out =? 0); reflexivity.
Qed.

Lemma scope_objs_on_return (path : string) (m : @Machine VCDTime)
    (out : @GrammarOut VCDTime) :
  w_scope_objs (world_on_return path m out) =
    if go_result out =? 0
    then gs_scope_objs (go_state out)
    else foldr delete (gs_scope_objs (go_state out))
           (file_scopes (gs_trace (go_state out))).
Proof.
  unfold world_on_return, world_on_return_stdin, world_on_return_named,
    heap_on_return.
  destruct (is_stdin_path path), (go_result out =? 0); reflexivity.
Qed.


(** C1 (amended): for every path other than the empty string and ["-"]
    that names a file which cannot be opened, [parse_file] writes
    [" : Cannot open <path>: <strerror(errno)>"] to the diagnostic sink
    and then ends the process with [exit(EXIT_FAILURE)]; no Trace is
    allocated and control does not return to the caller. *)
Theorem parse_file_open_failure_exits (path : string) (m : @Machine VCDTime) (e : Z) :
  path <> "" -> path <> "-" ->
  open_errno path (world m) = Some e ->
  exists m',
    parse_file strerror grammar path m = Exited EXIT_FAILURE m' /\
    w_stderr (world m') =
      w_stderr (world m) ++ [" : Cannot open " +:+ path +:+ ": " +:+ strerror e] /\
    w_files (world m') = w_files (world m) /\
    (forall r m'', parse_file strerror grammar path m <> Returned r m'').
Proof.
  intros Hne Hnd He.
  assert (Hp : is_stdin_path path = false) by now apply is_stdin_path_false.
  rewrite (parse_file_cannot_open path m e Hp He).
  eexists. split; [reflexivity |]. repeat split. discriminate.
Qed.



(** The three ways a call can go, by path and world. *)
Lemma source_cases (path : string) (w : @World VCDTime) :
  (exists text, source_text path w = Some text) \/
  (is_stdin_path path = true /\ w_stdin_open w = false) \/
  (is_stdin_path path = false /\ exists e, open_errno path w = Some e).
Proof.
  unfold source_text, open_errno.
  destruct (is_stdin_path path).
  - destruct (w_stdin_open w); [left; eauto | right; left; auto].
  - destruct (w_fs w !! path) as [[c | e] |];
      [left; eauto | right; right; eauto | right; right; eauto].
Qed.

Lemma stdin_open_on_return (path : string) (m : @Machine VCDTime)
    (out : @GrammarOut VCDTime) :
  w_stdin_open (world_on_return path m out) = w_stdin_open (world m).
Proof.
  unfold world_on_return, world_on_return_stdin, world_on_return_named,
    heap_on_return.
  destruct (is_stdin_path path), (go_result out =? 0); reflexivity.
Qed.

(** C2 (behaviour of the code): [parse_file] does not clear the scope
    stack and pushes two root scopes on top of what it finds, the one
    named ["$root"] and the one named [""]; it pops once.  So when the
    engine run is balanced, the call returns with the stale ["$root"]
    scope left on the stack, one entry more than before the call, while
    the current-time cursor was reset to zero before the engine ran. *)
Theorem parse_file_leaves_stale_root (path text : string) (m : @Machine VCDTime) :
  source_text path (world m) = Some text ->
  balanced grammar (grammar_input path text m) ->
  exists r m',
    parse_file strerror grammar path m = Returned r m' /\
    gs_scopes (gi_state (grammar_input path text m)) =
      S (S (w_next_obj (world m))) :: S (w_next_obj (world m)) :: scopes (self m) /\
    gs_current_time (gi_state (grammar_input path text m)) = nl_zero /\
    scopes (self m') = S (w_next_obj (world m)) :: scopes (self m) /\
    length (scopes (self m')) = S (length (scopes (self m))).
Proof.
  intros Hsrc Hbal. rewrite (parse_file_returns path text m Hsrc).
  cbv zeta. rewrite Hbal. cbn [grammar_input gi_state initial_grammar_state gs_scopes].
  do 2 eexists. split; [reflexivity |]. repeat split.
Qed.

(** C3 (amended): on every path on which [parse_file] returns to its
    caller, after a successful parse or after a grammar failure, the
    [input_file] member is null, the scanner created by the call is
    destroyed and its handle nulled, and the stream opened for a named
    file is closed; standard input, when it is the source, is left open. *)
Theorem parse_file_releases_on_return (path text : string) (m : @Machine VCDTime) :
  source_text path (world m) = Some text ->
  gs_scopes (go_state (grammar (grammar_input path text m))) <> [] ->
  exists r m',
    parse_file strerror grammar path m = Returned r m' /\
    input_file (self m') = None /\
    scanner (self m') = None /\
    w_scanners (world m') !! w_next_scanner (world m) = None /\
    (is_stdin_path path = false ->
       w_streams (world m') !! w_next_stream (world m) = None) /\
    (is_stdin_path path = true ->
       w_stdin_open (world m') = true /\
       w_streams (world m') = w_streams (world m)).
Proof.
  intros Hsrc Hstk. rewrite (parse_file_returns path text m Hsrc).
  cbv zeta. destruct (gs_scopes _) as [| top rest]; [congruence |].
  do 2 eexists. split; [reflexivity |]. cbn [self world].
  unfold world_on_return, world_on_return_stdin, world_on_return_named,
    heap_on_return.
  unfold source_text in Hsrc.
  destruct (is_stdin_path path);
    destruct (go_result _ =? 0); cbn.
  all: repeat split; try discriminate; try apply lookup_delete_eq.
  all: try (intros _; apply lookup_delete_eq).
  all: destruct (w_stdin_open (world m)); [reflexivity | discriminate].
Qed.

(** C6: whatever the two debug toggles are set to, the result of
    [parse_file] (the Trace behind the returned pointer with its scope
    objects, or the failure, or the exit status) is the result obtained
    with both toggles off, for every engine whose debug levels change
    nothing but its diagnostics. *)
Theorem parse_file_toggles_irrelevant (path : string) (m : @Machine VCDTime)
    (ts tp : bool) :
  debug_insensitive grammar ->
  result_of (parse_file strerror grammar path (with_toggles ts tp m)) =
  result_of (parse_file strerror grammar path (with_toggles false false m)).
Proof.
  intros Hdbg.
  destruct (source_cases path (world m)) as [[text Hsrc] | [[Hp Ho] | [Hp [e He]]]].
  - rewrite (parse_file_returns path text (with_toggles ts tp m) Hsrc).
    rewrite (parse_file_returns path text (with_toggles false false m) Hsrc).
    cbv zeta.
    destruct (Hdbg (grammar_input path text (with_toggles false false m))
                (if ts then 1 else 0) (Z.b2z tp)) as (Hr & Hs & _).
    change (mkGrammarIn _ _ _ _ _ _ _)
      with (grammar_input path text (with_toggles ts tp m)) in Hr, Hs.
    rewrite Hs. destruct (gs_scopes _) as [| top rest]; [reflexivity |].
    rewrite Hr. unfold result_of.
    destruct (go_result _ =? 0) eqn:Hres; [| reflexivity].
    cbn [world]. rewrite !files_on_return, !scope_objs_on_return.
    rewrite Hr, Hres, Hs. cbn [with_toggles world].
    rewrite !lookup_insert_eq. reflexivity.
  - rewrite !parse_file_stdin_closed by assumption. reflexivity.
  - rewrite (parse_file_cannot_open path (with_toggles ts tp m) e Hp He).
    rewrite (parse_file_cannot_open path (with_toggles false false m) e Hp He).
    reflexivity.
Qed.

(** [scan_begin] on its own: it adopts standard input when the
    [filepath] member is empty or ["-"] and opens no file; for any other
    path it calls [fopen] on it for reading and, when that succeeds,
    binds the scanner to the new stream. *)
Theorem scan_begin_selects_source (m : @Machine VCDTime) :
  (filepath (self m) = "" \/ filepath (self m) = "-" ->
   exists m' so,
     scan_begin strerror m = Returned tt m' /\
     input_file (self m') = Some stdin /\
     w_streams (world m') = w_streams (world m) /\
     w_next_stream (world m') = w_next_stream (world m) /\
     scanner (self m') = Some (w_next_scanner (world m)) /\
     w_scanners (world m') !! w_next_scanner (world m) = Some so /\
     yy_in so = Some stdin) /\
  (filepath (self m) <> "" -> filepath (self m) <> "-" ->
   forall content,
     w_fs (world m) !! filepath (self m) = Some (Readable content) ->
     exists m' so,
       scan_begin strerror m = Returned tt m' /\
       input_file (self m') = Some (stream (w_next_stream (world m))) /\
       w_streams (world m') =
         <[w_next_stream (world m) := content]> (w_streams (world m)) /\
       w_stdin_open (world m') = w_stdin_open (world m) /\
       scanner (self m') = Some (w_next_scanner (world m)) /\
       w_scanners (world m') !! w_next_scanner (world m) = Some so /\
       yy_in so = Some (stream (w_next_stream (world m)))).
Proof.
  split.
  - intros Hp. apply is_stdin_path_spec in Hp. explode m. revert Hp. exec.
    intros ->. exec.
    do 2 eexists. split; [reflexivity |]. exec.
    repeat split.
  - intros Hne Hnd content Hf.
    assert (Hp : is_stdin_path (filepath (self m)) = false)
      by now apply is_stdin_path_false.
    explode m. revert Hp Hf. exec. intros -> ->. exec.
    do 2 eexists. split; [reflexivity |]. exec.
    repeat split.
Qed.

(** C9: a freshly constructed session has [start_time] equal to the
    lowest value of [VCDTime] and [end_time] equal to its greatest, so
    every value between the limits of the type lies in the retention
    window; this holds for a time type whose range is symmetric, that is
    whose lowest value is the negation of its greatest, as it is for the
    floating-point types. *)
Theorem ctor_window_is_whole_range (junk : option nat) (t : VCDTime) :
  nl_neg nl_max = nl_lowest ->
  nl_le nl_lowest t = true ->
  nl_le t nl_max = true ->
  start_time (VCDFileParser_ctor junk) = nl_lowest /\
  end_time (VCDFileParser_ctor junk) = nl_max /\
  in_window (start_time (VCDFileParser_ctor junk))
    (end_time (VCDFileParser_ctor junk)) t = true.
Proof.
  intros Hsym Hlo Hhi. cbn [VCDFileParser_ctor start_time end_time].
  rewrite Hsym. unfold in_window. rewrite Hlo, Hhi. repeat split.
Qed.

(** C10: [scan_end] never closes standard input: it calls [fclose] only
    on a stream opened for a named file; on every call it nulls
    [input_file], destroys the scanner if there is one and nulls its
    handle.  In particular, with standard input as the source, standard
    input and every open stream are as they were. *)
Theorem scan_end_leaves_stdin_open (m : @Machine VCDTime) :
  match input_file (self m) with
  | Some (stream h) => is_Some (w_streams (world m) !! h)
  | _ => True
  end ->
  match scanner (self m) with
  | Some i => is_Some (w_scanners (world m) !! i)
  | None => True
  end ->
  exists m',
    scan_end (VCDTime := VCDTime) m = Returned tt m' /\
    w_stdin_open (world m') = w_stdin_open (world m) /\
    w_stdin (world m') = w_stdin (world m) /\
    w_streams (world m') =
      match input_file (self m) with
      | Some (stream h) => delete h (w_streams (world m))
      | _ => w_streams (world m)
      end /\
    input_file (self m') = None /\
    scanner (self m') = None /\
    w_scanners (world m') =
      match scanner (self m) with
      | Some i => delete i (w_scanners (world m))
      | None => w_scanners (world m)
      end.
Proof.
  explode m. exec. intros Hin Hsc.
  destruct scn as [i |].
  - destruct Hsc as [so Hso].
    destruct inf as [[| h] |]; exec.
    2: destruct Hin as [c ->]; exec.
    all: rewrite Hso; exec.
    all: eexists; (split; [reflexivity |]); repeat split.
  - destruct inf as [[| h] |]; exec.
    2: destruct Hin as [c ->]; exec.
    all: eexists; (split; [reflexivity |]); repeat split.
Qed.

(** ** Further properties of the driver *)

Lemma next_obj_on_return (path : string) (m : @Machine VCDTime)
    (out : @GrammarOut VCDTime) :
  w_next_obj (world_on_return path m out) = gs_next_obj (go_state out).
Proof.
  unfold world_on_return, world_on_return_stdin, world_on_return_named,
    heap_on_return.
  destruct (is_stdin_path path), (go_result out =? 0); reflexivity.
Qed.

Lemma stderr_on_return (path : string) (m : @Machine VCDTime)
    (out : @GrammarOut VCDTime) :
  w_stderr (world_on_return path m out) = w_stderr (world m) ++ go_diag out.
Proof.
  unfold world_on_return, world_on_return_stdin, world_on_return_named,
    heap_on_return.
  destruct (is_stdin_path path), (go_result out =? 0); reflexivity.
Qed.

(** A call that returns had its input source, and is the run described
    by [parse_file_returns]. *)
Lemma returned_inv (path : string) (m m1 : @Machine VCDTime)
    (r : option nat) :
  parse_file strerror grammar path m = Returned r m1 ->
  exists text top rest,
    source_text path (world m) = Some text /\
    gs_scopes (go_state (grammar (grammar_input path text m))) = top :: rest /\
    r = (if go_result (grammar (grammar_input path text m)) =? 0
         then Some (w_next_obj (world m)) else None) /\
    m1 = mkMachine
           (session_on_return path m (grammar (grammar_input path text m)) rest)
           (world_on_return path m (grammar (grammar_input path text m))).
Proof.
  intros Hret.
  destruct (source_cases path (world m)) as [[text Hsrc] | [[Hp Ho] | [Hp [e He]]]].
  - rewrite (parse_file_returns path text m Hsrc) in Hret. cbv zeta in Hret.
    destruct (gs_scopes _) as [| top rest] eqn:Hstk; [discriminate |].
    injection Hret as Hr Hm. subst r m1.
    exists text, top, rest. repeat split; assumption.
  - rewrite (parse_file_stdin_closed path m Hp Ho) in Hret. discriminate.
  - rewrite (parse_file_cannot_open path m e Hp He) in Hret. discriminate.
Qed.

(** X1: after a grammar failure [parse_file] returns [nullptr] but does
    not clear [fh]: the member still holds the address of the Trace that
    was just deleted. *)
Theorem parse_file_failure_leaves_fh_dangling (path text : string)
    (m : @Machine VCDTime) :
  source_text path (world m) = Some text ->
  go_result (grammar (grammar_input path text m)) <> 0 ->
  gs_scopes (go_state (grammar (grammar_input path text m))) <> [] ->
  exists m',
    parse_file strerror grammar path m = Returned None m' /\
    fh (self m') = Some (w_next_obj (world m)) /\
    w_files (world m') !! w_next_obj (world m) = None.
Proof.
  intros Hsrc Hres Hstk. rewrite (parse_file_returns path text m Hsrc).
  cbv zeta. destruct (gs_scopes _) as [| top rest]; [congruence |].
  apply Z.eqb_neq in Hres. rewrite Hres.
  eexists. split; [reflexivity |]. cbn [world self].
  rewrite files_on_return, Hres. unfold session_on_return. cbn [fh].
  rewrite Hres. split; [reflexivity | apply lookup_delete_eq].
Qed.

(** X2: whether [parse_file] returns or ends the process, the session's
    [filepath] member is the argument of the call, and the retention
    window and the two debug toggles are what they were before it. *)
Theorem parse_file_keeps_configuration (path : string) (m : @Machine VCDTime) :
  match parse_file strerror grammar path m with
  | Returned _ m' | Exited _ m' =>
      filepath (self m') = path /\
      start_time (self m') = start_time (self m) /\
      end_time (self m') = end_time (self m) /\
      trace_scanning (self m') = trace_scanning (self m) /\
      trace_parsing (self m') = trace_parsing (self m)
  | Undefined => True
  end.
Proof.
  destruct (source_cases path (world m)) as [[text Hsrc] | [[Hp Ho] | [Hp [e He]]]].
  - rewrite (parse_file_returns path text m Hsrc). cbv zeta.
    destruct (gs_scopes _); [exact I | repeat split].
  - rewrite (parse_file_stdin_closed path m Hp Ho). exact I.
  - rewrite (parse_file_cannot_open path m e Hp He). repeat split.
Qed.

(** X3: [scan_begin] followed by [scan_end] is a round trip on the
    resources: with the next stream and scanner handles unused, the open
    streams, the live scanners and standard input are afterwards exactly
    what they were, and the session holds neither a stream nor a
    scanner. *)
Theorem scan_begin_scan_end_round_trip (m : @Machine VCDTime) :
  is_stdin_path (filepath (self m)) = true \/
    (exists content,
       w_fs (world m) !! filepath (self m) = Some (Readable content)) ->
  w_streams (world m) !! w_next_stream (world m) = None ->
  w_scanners (world m) !! w_next_scanner (world m) = None ->
  exists m',
    bind (scan_begin strerror) (fun _ => scan_end) m = Returned tt m' /\
    w_streams (world m') = w_streams (world m) /\
    w_scanners (world m') = w_scanners (world m) /\
    w_stdin_open (world m') = w_stdin_open (world m) /\
    w_stdin (world m') = w_stdin (world m) /\
    input_file (self m') = None /\
    scanner (self m') = None.
Proof.
  intros Hsrc Hstr Hscn. explode m. revert Hsrc Hstr Hscn. exec.
  intros Hsrc Hstr Hscn.
  destruct (is_stdin_path fp) eqn:Hp.
  - exec. tidy_maps. rewrite (delete_id _ _ Hscn).
    eexists. split; [reflexivity |]. repeat split.
  - destruct Hsrc as [Hsrc | [content Hf]]; [discriminate |].
    rewrite Hf. exec. tidy_maps.
    rewrite (delete_id _ _ Hscn), (delete_id _ _ Hstr).
    eexists. split; [reflexivity |]. repeat split.
Qed.

(** X4: [scan_end] is idempotent: once it has run, a second call finds
    [input_file] and [scanner] null, closes and destroys nothing, and
    leaves the machine as it is. *)
Theorem scan_end_idempotent (m : @Machine VCDTime) :
  match input_file (self m) with
  | Some (stream h) => is_Some (w_streams (world m) !! h)
  | _ => True
  end ->
  match scanner (self m) with
  | Some i => is_Some (w_scanners (world m) !! i)
  | None => True
  end ->
  exists m',
    scan_end m = Returned tt m' /\
    scan_end m' = Returned tt m'.
Proof.
  explode m. exec. intros Hin Hsc.
  destruct scn as [i |].
  - destruct Hsc as [so Hso].
    destruct inf as [[| h] |]; exec.
    2: destruct Hin as [c ->]; exec.
    all: rewrite Hso; exec.
    all: eexists; split; reflexivity.
  - destruct inf as [[| h] |]; exec.
    2: destruct Hin as [c ->]; exec.
    all: eexists; split; reflexivity.
Qed.

Lemma lookup_foldr_delete_notin {A} (ks : list nat) (mp : gmap nat A)
    (k : nat) :
  k ∉ ks -> foldr delete mp ks !! k = mp !! k.
Proof.
  induction ks as [| k' ks IH]; intros Hnin; [reflexivity |].
  cbn [foldr]. apply not_elem_of_cons in Hnin as [Hne Hnin].
  rewrite lookup_delete_ne by congruence. now apply IH.
Qed.

(** X5: a later call of [parse_file] on the same session never returns
    the pointer of a Trace returned earlier and leaves the earlier
    [VCDFile] object as it was.  It changes a scope object that was
    allocated before the call only through the engine: every such object
    that the engine run neither changes nor, when the run fails, has
    registered in the new Trace is afterwards what it was. *)
Theorem later_parse_keeps_earlier_trace (p1 p2 text2 : string)
    (m m1 : @Machine VCDTime) (a1 : nat) :
  allocation_monotone grammar ->
  parse_file strerror grammar p1 m = Returned (Some a1) m1 ->
  source_text p2 (world m1) = Some text2 ->
  gs_scopes (go_state (grammar (grammar_input p2 text2 m1))) <> [] ->
  exists r2 m2,
    parse_file strerror grammar p2 m1 = Returned r2 m2 /\
    r2 <> Some a1 /\
    is_Some (w_files (world m1) !! a1) /\
    w_files (world m2) !! a1 = w_files (world m1) !! a1 /\
    (forall b,
       (b < w_next_obj (world m1))%nat ->
       gs_scope_objs (go_state (grammar (grammar_input p2 text2 m1))) !! b =
         gs_scope_objs (gi_state (grammar_input p2 text2 m1)) !! b ->
       (go_result (grammar (grammar_input p2 text2 m1)) <> 0 ->
        b ∉ file_scopes
              (gs_trace (go_state (grammar (grammar_input p2 text2 m1))))) ->
       w_scope_objs (world m2) !! b = w_scope_objs (world m1) !! b).
Proof.
  intros Hmono Hret Hsrc2 Hstk2.
  destruct (returned_inv p1 m m1 (Some a1) Hret)
    as (text1 & top & rest & Hsrc1 & Hstk1 & Hr & ->).
  destruct (go_result (grammar (grammar_input p1 text1 m)) =? 0) eqn:Hres1;
    [| discriminate].
  injection Hr as ->.
  assert (Hlt : (w_next_obj (world m) <
                 w_next_obj (world_on_return p1 m
                               (grammar (grammar_input p1 text1 m))))%nat).
  { rewrite next_obj_on_return.
    pose proof (Hmono (grammar_input p1 text1 m)) as Hle.
    cbn [grammar_input gi_state initial_grammar_state gs_next_obj] in Hle.
    lia. }
  rewrite (parse_file_returns p2 text2 _ Hsrc2). cbv zeta.
  destruct (gs_scopes _) as [| top2 rest2]; [congruence |].
  do 2 eexists. split; [reflexivity |]. cbn [world self] in *.
  split; [| split; [| split]].
  - intros Heq.
    destruct (go_result (grammar (grammar_input p2 text2 _)) =? 0);
      [| discriminate].
    injection Heq as Heq. lia.
  - rewrite files_on_return, Hres1, lookup_insert_eq. eauto.
  - rewrite (files_on_return p2). cbn [world].
    destruct (go_result (grammar (grammar_input p2 text2 _)) =? 0);
      [rewrite lookup_insert_ne by lia | rewrite lookup_delete_ne by lia];
      reflexivity.
  - intros b Hb Hkeep Hreg.
    rewrite (scope_objs_on_return p2).
    assert (Hin : gs_scope_objs
                    (gi_state
                       (grammar_input p2 text2
                          (mkMachine
                             (session_on_return p1 m
                                (grammar (grammar_input p1 text1 m)) rest)
                             (world_on_return p1 m
                                (grammar (grammar_input p1 text1 m)))))) !! b =
                  w_scope_objs
                    (world_on_return p1 m (grammar (grammar_input p1 text1 m)))
                    !! b).
    { cbn [grammar_input gi_state initial_grammar_state gs_scope_objs world].
      rewrite !lookup_insert_ne by lia. reflexivity. }
    destruct (go_result (grammar (grammar_input p2 text2 _)) =? 0) eqn:Hres2.
    + rewrite Hkeep. exact Hin.
    + rewrite lookup_foldr_delete_notin
        by (apply Hreg; intros H0; rewrite H0 in Hres2; discriminate).
      rewrite Hkeep. exact Hin.
Qed.

(** C7: [parse_file] called with the empty string or ["-"] takes its
    input from standard input and opens no file: the engine is run on
    the unread text of standard input, what it leaves unread stays on
    standard input, and no stream has been opened.  Called with any other
    path that [fopen] can open, it opens that file for reading: the
    engine is run on the content of the file, one stream has been opened
    (and closed again), and standard input has not been read.  In both
    cases the call never ends the process, and it is undefined only when
    the engine has emptied the scope stack.  When [fopen] cannot open the
    path, the call ends the process with the [errno] that [fopen] set,
    standard input and the open streams being as they were. *)
Theorem parse_file_selects_source (path : string) (m : @Machine VCDTime) :
  (path = "" \/ path = "-" ->
   w_stdin_open (world m) = true ->
   match parse_file strerror grammar path m with
   | Returned r m' =>
       r = (if go_result
                 (grammar (grammar_input path (w_stdin (world m)) m)) =? 0
            then Some (w_next_obj (world m)) else None) /\
       w_stdin (world m') =
         go_rest (grammar (grammar_input path (w_stdin (world m)) m)) /\
       w_stdin_open (world m') = true /\
       w_next_stream (world m') = w_next_stream (world m) /\
       w_streams (world m') = w_streams (world m) /\
       w_stderr (world m') =
         w_stderr (world m) ++
           go_diag (grammar (grammar_input path (w_stdin (world m)) m))
   | Exited _ _ => False
   | Undefined =>
       gs_scopes
         (go_state (grammar (grammar_input path (w_stdin (world m)) m))) = []
   end) /\
  (path <> "" -> path <> "-" ->
   forall content,
     w_fs (world m) !! path = Some (Readable content) ->
     match parse_file strerror grammar path m with
     | Returned r m' =>
         r = (if go_result (grammar (grammar_input path content m)) =? 0
              then Some (w_next_obj (world m)) else None) /\
         w_next_stream (world m') = S (w_next_stream (world m)) /\
         w_streams (world m') =
           delete (w_next_stream (world m)) (w_streams (world m)) /\
         w_stdin (world m') = w_stdin (world m) /\
         w_stdin_open (world m') = w_stdin_open (world m) /\
         w_stderr (world m') =
           w_stderr (world m) ++
             go_diag (grammar (grammar_input path content m))
     | Exited _ _ => False
     | Undefined =>
         gs_scopes (go_state (grammar (grammar_input path content m))) = []
     end) /\
  (path <> "" -> path <> "-" ->
   forall e,
     open_errno path (world m) = Some e ->
     match parse_file strerror grammar path m with
     | Exited status m' =>
         status = EXIT_FAILURE /\
         w_errno (world m') = e /\
         w_stdin (world m') = w_stdin (world m) /\
         w_streams (world m') = w_streams (world m)
     | _ => False
     end).
Proof.
  split; [| split].
  3: { intros Hne Hnd e He.
       assert (Hp : is_stdin_path path = false)
         by now apply is_stdin_path_false.
       rewrite (parse_file_cannot_open path m e Hp He). repeat split. }
  - intros Hp Ho. apply is_stdin_path_spec in Hp.
    rewrite (parse_file_stdin path m Hp Ho). cbv zeta.
    destruct (gs_scopes _) as [| top rest]; [reflexivity |].
    cbn [world]. unfold world_on_return_stdin, heap_on_return.
    destruct (go_result _ =? 0); cbn; rewrite Ho; repeat split.
  - intros Hne Hnd content Hf.
    assert (Hp : is_stdin_path path = false) by now apply is_stdin_path_false.
    rewrite (parse_file_named path content m Hp Hf). cbv zeta.
    destruct (gs_scopes _) as [| top rest]; [reflexivity |].
    cbn [world]. unfold world_on_return_named, heap_on_return.
    destruct (go_result _ =? 0); cbn; repeat split.
Qed.


(** X6: between two calls on one session the current-time cursor is
    reset but the location tracker is not: the engine of the second call
    starts at time zero and at the location where the engine of the
    first call stopped. *)
Theorem location_carried_into_next_call (p1 p2 text1 text2 : string)
    (m m1 : @Machine VCDTime) (r1 : option nat) :
  source_text p1 (world m) = Some text1 ->
  parse_file strerror grammar p1 m = Returned r1 m1 ->
  loc (self m1) = gs_loc (go_state (grammar (grammar_input p1 text1 m))) /\
  current_time (self m1) =
    gs_current_time (go_state (grammar (grammar_input p1 text1 m))) /\
  gs_loc (gi_state (grammar_input p2 text2 m1)) =
    gs_loc (go_state (grammar (grammar_input p1 text1 m))) /\
  gs_current_time (gi_state (grammar_input p2 text2 m1)) = nl_zero.
Proof.
  intros Hsrc Hret.
  rewrite (parse_file_returns p1 text1 m Hsrc) in Hret. cbv zeta in Hret.
  destruct (gs_scopes _) as [| top rest]; [discriminate |].
  injection Hret as Hr Hm. subst r1 m1. repeat split.
Qed.

(** X7: on every path on which it returns, [parse_file] writes nothing
    to the diagnostic sink itself: what was added to [stderr] is exactly
    what the engine wrote, also when the result is [nullptr]. *)
Theorem parse_file_adds_no_diagnostics (path : string)
    (m m' : @Machine VCDTime) (r : option nat) :
  parse_file strerror grammar path m = Returned r m' ->
  exists text,
    source_text path (world m) = Some text /\
    w_stderr (world m') =
      w_stderr (world m) ++ go_diag (grammar (grammar_input path text m)).
Proof.
  intros Hret.
  destruct (returned_inv path m m' r Hret)
    as (text & top & rest & Hsrc & Hstk & Hr & ->).
  exists text. split; [exact Hsrc |]. cbn [world].
  apply stderr_on_return.
Qed.

Lemma grammar_input_invariant (path text : string) (m : @Machine VCDTime) :
  engine_start_invariant (grammar_input path text m).
Proof.
  exists (S (S (w_next_obj (world m)))), (S (w_next_obj (world m))),
    (scopes (self m)).
  cbn [grammar_input gi_state initial_grammar_state gs_scopes gs_trace
       gs_scope_objs gs_current_time].
  repeat split.
  - lia.
  - apply lookup_insert_eq.
  - rewrite lookup_insert_ne by lia. apply lookup_insert_eq.
Qed.

End DriverFacts.

(** X8: [parse_file] starts the engine only in a state that satisfies
    [engine_start_invariant]: two engines that agree on all such states
    cannot be told apart through [parse_file]. *)
Theorem parse_file_starts_engine_on_fresh_root {VCDTime : Type}
    `{NumericLimits VCDTime} (strerror : Z -> string)
    (g1 g2 : @GrammarIn VCDTime -> @GrammarOut VCDTime)
    (path : string) (m : @Machine VCDTime) :
  (forall i, engine_start_invariant i -> g1 i = g2 i) ->
  parse_file strerror g1 path m = parse_file strerror g2 path m.
Proof.
  intros Hagree.
  destruct (source_cases path (world m)) as [[text Hsrc] | [[Hp Ho] | [Hp [e He]]]].
  - rewrite (parse_file_returns strerror g1 path text m Hsrc).
    rewrite (parse_file_returns strerror g2 path text m Hsrc).
    rewrite (Hagree _ (grammar_input_invariant path text m)). reflexivity.
  - rewrite !parse_file_stdin_closed by assumption. reflexivity.
  - rewrite (parse_file_cannot_open strerror g1 path m e Hp He).
    rewrite (parse_file_cannot_open strerror g2 path m e Hp He). reflexivity.
Qed.

(** X15: [parse_file] ends the process in one situation only: the path
    is neither empty nor ["-"] and [fopen] cannot open it; the status is
    then [EXIT_FAILURE].  A grammar failure never ends the process. *)
Theorem parse_file_exits_only_on_open_failure {VCDTime : Type}
    `{NumericLimits VCDTime} (strerror : Z -> string)
    (grammar : @GrammarIn VCDTime -> @GrammarOut VCDTime)
    (path : string) (m m' : @Machine VCDTime) (status : Z) :
  parse_file strerror grammar path m = Exited status m' ->
  status = EXIT_FAILURE /\
  path <> "" /\ path <> "-" /\
  exists e, open_errno path (world m) = Some e.
Proof.
  intros Hexit.
  destruct (source_cases path (world m)) as [[text Hsrc] | [[Hp Ho] | [Hp [e He]]]].
  - rewrite (parse_file_returns strerror grammar path text m Hsrc) in Hexit.
    cbv zeta in Hexit. destruct (gs_scopes _); discriminate.
  - rewrite (parse_file_stdin_closed strerror grammar path m Hp Ho) in Hexit.
    discriminate.
  - rewrite (parse_file_cannot_open strerror grammar path m e Hp He) in Hexit.
    injection Hexit as <- _. apply is_stdin_path_false in Hp as [Hne Hnd].
    repeat split; eauto.
Qed.

(** * The statements at concrete inputs *)

Lemma parse_file_open_failure_exits_witness :
  "missing.vcd" <> "" /\ "missing.vcd" <> "-" /\
  open_errno "missing.vcd" (world sample_machine) = Some ENOENT /\
  exists m',
    sample_parse_file "missing.vcd" sample_machine = Exited EXIT_FAILURE m' /\
    w_stderr (world m') =
      w_stderr (world sample_machine) ++
        [" : Cannot open " +:+ "missing.vcd" +:+ ": " +:+ posix_strerror ENOENT] /\
    w_files (world m') = w_files (world sample_machine) /\
    (forall r m'',
       sample_parse_file "missing.vcd" sample_machine <> Returned r m'').
Proof.
  split; [discriminate |]. split; [discriminate |]. split; [reflexivity |].
  apply (@parse_file_open_failure_exits Z binary64_limits posix_strerror
           stub_grammar "missing.vcd" sample_machine ENOENT);
    [discriminate | discriminate | reflexivity].
Defined.

(** C1 (as stated) fails: for the path of a file that does not exist,
    [parse_file] does not return a failure result to its caller; the
    process exits with [EXIT_FAILURE]. *)
Lemma open_failure_does_not_return :
  open_errno "missing.vcd" (world sample_machine) = Some ENOENT /\
  sample_parse_file "missing.vcd" sample_machine =
    Exited EXIT_FAILURE
      (mkMachine (session_at_exit "missing.vcd" sample_machine)
         (world_at_exit posix_strerror "missing.vcd" ENOENT sample_machine)) /\
  ~ (exists m', sample_parse_file "missing.vcd" sample_machine = Returned None m').
Proof.
  split; [reflexivity |]. split; [vm_compute; reflexivity |].
  intros [m' Hm]. vm_compute in Hm. discriminate Hm.
Qed.

Lemma parse_file_leaves_stale_root_witness :
  source_text "a.vcd" (world sample_machine) = Some "$date today $end" /\
  balanced stub_grammar (grammar_input "a.vcd" "$date today $end" sample_machine) /\
  exists r m',
    sample_parse_file "a.vcd" sample_machine = Returned r m' /\
    gs_scopes (gi_state (grammar_input "a.vcd" "$date today $end" sample_machine)) =
      [2%nat; 1%nat] /\
    gs_current_time
      (gi_state (grammar_input "a.vcd" "$date today $end" sample_machine)) = 0 /\
    scopes (self m') = [1%nat] /\
    length (scopes (self m')) = 1%nat.
Proof.
  split; [reflexivity |]. split; [reflexivity |].
  apply (@parse_file_leaves_stale_root Z binary64_limits posix_strerror
           stub_grammar "a.vcd" "$date today $end" sample_machine);
    reflexivity.
Defined.

Lemma parse_file_releases_on_return_witness :
  source_text "bad.vcd" (world sample_machine) = Some "garbage" /\
  exists r m',
    sample_parse_file "bad.vcd" sample_machine = Returned r m' /\
    input_file (self m') = None /\
    scanner (self m') = None /\
    w_scanners (world m') !! 0%nat = None /\
    (is_stdin_path "bad.vcd" = false -> w_streams (world m') !! 0%nat = None) /\
    (is_stdin_path "bad.vcd" = true ->
       w_stdin_open (world m') = true /\
       w_streams (world m') = w_streams (world sample_machine)).
Proof.
  split; [reflexivity |].
  apply (@parse_file_releases_on_return Z binary64_limits posix_strerror
           stub_grammar "bad.vcd" "garbage" sample_machine);
    [reflexivity | discriminate].
Defined.

(** C3 (as stated) fails on two counts.  When the named file cannot be
    opened the call does not return and the scanner it initialised is
    still alive when the process exits; and after a parse of standard
    input the input handle has not been closed. *)
Lemma release_on_every_exit_path_fails :
  (exists m' so,
     sample_parse_file "missing.vcd" sample_machine = Exited EXIT_FAILURE m' /\
     scanner (self m') = Some 0%nat /\
     w_scanners (world m') !! 0%nat = Some so) /\
  (exists r m',
     sample_parse_file "-" sample_machine = Returned r m' /\
     input_file (self m') = None /\
     w_stdin_open (world m') = true).
Proof.
  split.
  - do 2 eexists. split; [vm_compute; reflexivity |].
    split; [reflexivity | vm_compute; reflexivity].
  - do 2 eexists. split; [vm_compute; reflexivity |].
    split; reflexivity.
Qed.


Lemma parse_file_toggles_irrelevant_witness :
  debug_insensitive stub_grammar /\
  result_of (sample_parse_file "a.vcd" (with_toggles true true sample_machine)) =
  result_of (sample_parse_file "a.vcd" (with_toggles false false sample_machine)).
Proof.
  assert (Hd : debug_insensitive stub_grammar)
    by (intros i d1 d2; repeat split).
  split; [exact Hd |].
  exact (@parse_file_toggles_irrelevant Z binary64_limits posix_strerror
           stub_grammar "a.vcd" sample_machine true true Hd).
Defined.

Lemma scan_begin_selects_source_witness :
  (exists m' so,
     scan_begin posix_strerror sample_stdin_machine = Returned tt m' /\
     input_file (self m') = Some stdin /\
     w_streams (world m') = w_streams (world sample_stdin_machine) /\
     w_next_stream (world m') = w_next_stream (world sample_stdin_machine) /\
     scanner (self m') = Some (w_next_scanner (world sample_stdin_machine)) /\
     w_scanners (world m') !! w_next_scanner (world sample_stdin_machine) = Some so /\
     yy_in so = Some stdin) /\
  (exists m' so,
     scan_begin posix_strerror sample_named_machine = Returned tt m' /\
     input_file (self m') = Some (stream 0%nat) /\
     w_streams (world m') = <[0%nat := "$date today $end"]> ∅ /\
     w_stdin_open (world m') = true /\
     scanner (self m') = Some 0%nat /\
     w_scanners (world m') !! 0%nat = Some so /\
     yy_in so = Some (stream 0%nat)).
Proof.
  split.
  - apply (proj1 (@scan_begin_selects_source Z posix_strerror
                    sample_stdin_machine)).
    right. reflexivity.
  - apply (proj2 (@scan_begin_selects_source Z posix_strerror
                    sample_named_machine));
      [discriminate | discriminate | reflexivity].
Defined.

Lemma parse_file_selects_source_witness :
  match sample_parse_file "-" sample_machine with
  | Returned r m' =>
      r = Some 0%nat /\
      w_stdin (world m') = "" /\
      w_stdin_open (world m') = true /\
      w_next_stream (world m') = 0%nat /\
      w_streams (world m') = ∅ /\
      w_stderr (world m') = []
  | Exited _ _ => False
  | Undefined => False
  end /\
  match sample_parse_file "a.vcd" sample_machine with
  | Returned r m' =>
      r = Some 0%nat /\
      w_next_stream (world m') = 1%nat /\
      w_streams (world m') = delete 0%nat ∅ /\
      w_stdin (world m') = "$version 1 $end" /\
      w_stdin_open (world m') = true /\
      w_stderr (world m') = []
  | Exited _ _ => False
  | Undefined => False
  end /\
  match sample_parse_file "locked.vcd" sample_machine with
  | Exited status m' =>
      status = EXIT_FAILURE /\
      w_errno (world m') = 13 /\
      w_stdin (world m') = "$version 1 $end" /\
      w_streams (world m') = ∅
  | _ => False
  end.
Proof.
  pose proof (@parse_file_selects_source Z binary64_limits posix_strerror
                stub_grammar "-" sample_machine) as [Hstdin _].
  pose proof (@parse_file_selects_source Z binary64_limits posix_strerror
                stub_grammar "a.vcd" sample_machine) as [_ [Hnamed _]].
  pose proof (@parse_file_selects_source Z binary64_limits posix_strerror
                stub_grammar "locked.vcd" sample_machine) as [_ [_ Hlocked]].
  specialize (Hstdin (or_intror eq_refl) eq_refl).
  specialize (Hnamed ltac:(discriminate) ltac:(discriminate)
                "$date today $end" eq_refl).
  specialize (Hlocked ltac:(discriminate) ltac:(discriminate) 13 eq_refl).
  unfold sample_parse_file. split; [| split; [| exact Hlocked]].
  - destruct (parse_file posix_strerror stub_grammar "-" sample_machine)
      as [r m' | st m' |]; [exact Hstdin | exact Hstdin |].
    vm_compute in Hstdin. discriminate Hstdin.
  - destruct (parse_file posix_strerror stub_grammar "a.vcd" sample_machine)
      as [r m' | st m' |]; [exact Hnamed | exact Hnamed |].
    vm_compute in Hnamed. discriminate Hnamed.
Defined.




Lemma ctor_window_is_whole_range_witness :
  @nl_neg Z binary64_limits (@nl_max Z binary64_limits) =
    @nl_lowest Z binary64_limits /\
  start_time (@VCDFileParser_ctor Z binary64_limits None) =
    @nl_lowest Z binary64_limits /\
  end_time (@VCDFileParser_ctor Z binary64_limits None) =
    @nl_max Z binary64_limits /\
  @in_window Z binary64_limits
    (start_time (@VCDFileParser_ctor Z binary64_limits None))
    (end_time (@VCDFileParser_ctor Z binary64_limits None)) 10 = true.
Proof.
  split; [reflexivity |].
  apply (@ctor_window_is_whole_range Z binary64_limits None 10);
    reflexivity.
Defined.

Lemma scan_end_leaves_stdin_open_witness :
  exists m',
    scan_end sample_stdin_machine = Returned tt m' /\
    w_stdin_open (world m') = true /\
    w_stdin (world m') = "$version 1 $end" /\
    w_streams (world m') = ∅ /\
    input_file (self m') = None /\
    scanner (self m') = None /\
    w_scanners (world m') =
      delete 0%nat (w_scanners (world sample_stdin_machine)).
Proof.
  apply (@scan_end_leaves_stdin_open Z sample_stdin_machine).
  - exact I.
  - eexists. reflexivity.
Defined.

(** ** Further facts about the sample instances *)

(** Sequential reuse: after a first successful parse on a fresh session
    the stack holds the stale ["$root"] scope, and the second call hands
    the engine a stack of three entries and leaves two behind. *)
Example sequential_reuse_stack_grows :
  match sample_parse_file "a.vcd" sample_machine with
  | Returned _ m1 =>
      scopes (self m1) = [1%nat] /\
      match sample_parse_file "a.vcd" m1 with
      | Returned _ m2 => scopes (self m2) = [4%nat; 1%nat]
      | _ => False
      end
  | _ => False
  end.
Proof. vm_compute. split; reflexivity. Qed.

(** For a two's-complement time type the negated maximum is not the
    lowest value, and the lowest value lies outside the default window. *)
Remark int64_window_misses_lowest :
  @nl_neg Z int64_limits (@nl_max Z int64_limits) <> @nl_lowest Z int64_limits /\
  @in_window Z int64_limits
    (start_time (@VCDFileParser_ctor Z int64_limits None))
    (end_time (@VCDFileParser_ctor Z int64_limits None))
    (@nl_lowest Z int64_limits) = false.
Proof. split; [discriminate | reflexivity]. Qed.

(** * Properties of the standalone printer *)

Lemma append_assoc (a b c : string) : (a +:+ b) +:+ c = a +:+ (b +:+ c).
Proof.
  induction a as [| ch a IH]; [reflexivity |].
  change (String ch ((a +:+ b) +:+ c) = String ch (a +:+ (b +:+ c))).
  f_equal. exact IH.
Qed.

Lemma seq_print_text (s : string) (b : Printed) (t : string) :
  seq_print (Text s) b = Text t -> exists u, b = Text u /\ t = s +:+ u.
Proof. destruct b; cbn; intros [= <-] || discriminate. eauto. Qed.

Lemma depth_positive (t : ScopeTree) : (0 < depth t)%nat.
Proof. destruct t. cbn. lia. Qed.

(** X9: on a heap that holds a scope tree, [traverse_scope] is the pure
    tree printer [render]: with a recursion budget of at least the depth
    of the tree it finishes and writes exactly the text of the tree. *)
Theorem traverse_scope_renders_tree (fuel : nat) (objs : gmap nat VCDScope)
    (parent : string) (a : nat) (t : ScopeTree) :
  shaped objs a t ->
  (depth t <= fuel)%nat ->
  traverse_scope fuel objs parent a = Text (render parent t).
Proof.
  revert parent a t.
  induction fuel as [| fuel IH]; intros parent a t Hsh Hd.
  - pose proof (depth_positive t). lia.
  - destruct Hsh as [a o kids Ho Hkids].
    cbn [traverse_scope render]. rewrite Ho. cbn [depth] in Hd.
    set (lp := qualify parent (name o)).
    assert (Hk :
      foldr (fun child rest =>
               seq_print
                 (seq_print (Text ("Child:" +:+ NL))
                    (traverse_scope fuel objs lp child)) rest)
        (Text "") (children o) =
      Text (foldr (fun k rest =>
                     (("Child:" +:+ NL) +:+ render lp k) +:+ rest) "" kids)).
    { assert (Hb : (foldr (fun k d => Nat.max (depth k) d) O kids <= fuel)%nat)
        by lia.
      clear Hd Ho. induction Hkids as [| c k cs ks Hck _ IHk].
      - reflexivity.
      - cbn [foldr] in *.
        rewrite (IH lp c k Hck) by lia. rewrite IHk by lia. reflexivity. }
    rewrite Hk. reflexivity.
Qed.

(** X10: when every scope of a set has a child in the same set, as the
    scopes on a cycle of child pointers have, [traverse_scope] started
    in the set never finishes: no recursion budget yields a text. *)
Theorem traverse_scope_never_finishes_on_cycle (C : nat -> Prop)
    (objs : gmap nat VCDScope) :
  (forall b, C b ->
     exists o c, objs !! b = Some o /\ c ∈ children o /\ C c) ->
  forall (fuel : nat) (parent : string) (a : nat) (s : string),
    C a -> traverse_scope fuel objs parent a <> Text s.
Proof.
  intros Hclosed fuel.
  induction fuel as [| fuel IH]; intros parent a s Ha; [discriminate |].
  destruct (Hclosed a Ha) as (o & c & Ho & Hc & HCc).
  cbn [traverse_scope]. rewrite Ho. intros Hfin.
  apply seq_print_text in Hfin as (u & Hu & _).
  revert u Hu. generalize (qualify parent (name o)) as lp.
  induction (children o) as [| c' cs IHcs]; intros lp u Hu.
  - inversion Hc.
  - cbn [foldr] in Hu.
    destruct (traverse_scope fuel objs lp c') as [sc | |] eqn:Hc';
      cbn in Hu; try discriminate.
    apply elem_of_cons in Hc as [-> | Hc].
    + exact (IH lp c' sc HCc Hc').
    + destruct (foldr _ _ cs) as [rest | |] eqn:Hrest; cbn in Hu;
        try discriminate.
      exact (IHcs Hc lp rest Hrest).
Qed.

Lemma qualify_nonempty_parent (p n : string) :
  p <> "" -> qualify p n = p +:+ "." +:+ n.
Proof.
  intros Hp. unfold qualify. destruct p as [| ch p]; [congruence |].
  cbn [String.length Nat.ltb Nat.leb]. apply append_assoc.
Qed.

Lemma fold_qualify_nonempty (names : list string) (p : string) :
  p <> "" -> fold_left qualify names p = String.concat "." (p :: names).
Proof.
  revert p. induction names as [| n ns IH]; intros p Hp.
  - reflexivity.
  - cbn [fold_left]. rewrite qualify_nonempty_parent by exact Hp.
    rewrite IH by (destruct p; [congruence | discriminate]).
    destruct ns as [| n2 ns]; cbn [String.concat];
      now rewrite ?append_assoc.
Qed.

(** X11: the qualified name that [traverse_scope] builds while it
    descends from an empty parent path through scopes named [names]
    (outermost first) is these names joined by dots, once the empty
    names at the front are dropped: the unnamed root adds neither a name
    nor a dot. *)
Theorem qualified_name_of_path (names : list string) :
  fold_left qualify names "" = String.concat "." (drop_leading_empty names).
Proof.
  induction names as [| n ns IH].
  - reflexivity.
  - cbn [fold_left drop_leading_empty]. destruct n as [| ch n].
    + exact IH.
    + change (qualify "" (String ch n)) with (String ch n).
      now apply fold_qualify_nonempty.
Qed.

(** * Properties of the generator of test inputs *)

Lemma int_range_spec (n x : Z) : x ∈ int_range n <-> 0 <= x < n.
Proof.
  unfold int_range. rewrite list_elem_of_fmap. split.
  - intros (k & -> & Hk). apply elem_of_seq in Hk. lia.
  - intros Hx. exists (Z.to_nat x). split; [lia |].
    apply elem_of_seq. lia.
Qed.

Lemma id_char_value (i : Z) :
  0 <= i <= INT_MAX - 33 ->
  id_char i = Some (Ascii.ascii_of_N (Z.to_N ((33 + i) mod 256))).
Proof.
  intros Hi. unfold id_char, int_value, INT_MIN, INT_MAX in *.
  destruct (Z.leb_spec (-2147483648) (33 + i)); [| lia].
  destruct (Z.leb_spec (33 + i) 2147483647); [| lia].
  reflexivity.
Qed.

(** X12: two signals of a generated file get the same identifier
    character exactly when their indices are congruent modulo 256: the
    identifiers of up to 256 signals are pairwise distinct, and from the
    257th signal on each one repeats an earlier identifier. *)
Theorem id_char_collides_modulo_256 (i j : Z) :
  0 <= i <= INT_MAX - 33 ->
  0 <= j <= INT_MAX - 33 ->
  id_char i = id_char j <-> i mod 256 = j mod 256.
Proof.
  intros Hi Hj. rewrite !id_char_value by assumption. split.
  - intros [= Heq].
    apply (f_equal Ascii.N_of_ascii) in Heq.
    rewrite !Ascii.N_ascii_embedding in Heq
      by (apply N2Z.inj_lt; rewrite Z2N.id by (apply Z.mod_pos_bound; lia);
          apply Z.mod_pos_bound; lia).
    apply (f_equal Z.of_N) in Heq.
    rewrite !Z2N.id in Heq by (apply Z.mod_pos_bound; lia).
    Z.div_mod_to_equations. lia.
  - intros Heq. do 3 f_equal. Z.div_mod_to_equations. lia.
Qed.

Lemma int_value_is_Some (z : Z) :
  is_Some (int_value z) <-> INT_MIN <= z <= INT_MAX.
Proof.
  unfold int_value.
  destruct (Z.leb_spec INT_MIN z), (Z.leb_spec z INT_MAX); cbn;
    split; intros Hs; try lia; try (eexists; reflexivity);
    destruct Hs; discriminate.
Qed.

Lemma id_char_is_Some (i : Z) :
  is_Some (id_char i) <-> INT_MIN <= 33 + i <= INT_MAX.
Proof.
  rewrite <- int_value_is_Some. unfold id_char.
  destruct (int_value (33 + i)); cbn; split; intros Hs;
    try (eexists; reflexivity); destruct Hs; discriminate.
Qed.

Lemma var_line_is_Some (i : Z) :
  is_Some (var_line i) <-> INT_MIN <= 33 + i <= INT_MAX.
Proof.
  rewrite <- id_char_is_Some. unfold var_line.
  destruct (id_char i); cbn; split; intros Hs;
    try (eexists; reflexivity); destruct Hs; discriminate.
Qed.

Lemma dump_line_is_Some (i : Z) :
  is_Some (dump_line i) <-> INT_MIN <= 33 + i <= INT_MAX.
Proof.
  rewrite <- id_char_is_Some. unfold dump_line.
  destruct (id_char i); cbn; split; intros Hs;
    try (eexists; reflexivity); destruct Hs; discriminate.
Qed.

Lemma change_line_is_Some (t i : Z) :
  is_Some (change_line t i) <->
  INT_MIN <= t + i <= INT_MAX /\ INT_MIN <= 33 + i <= INT_MAX.
Proof.
  rewrite <- int_value_is_Some, <- id_char_is_Some. unfold change_line.
  destruct (int_value (t + i)), (id_char i); cbn; split; intros Hs;
    try (split; eexists; reflexivity); try (eexists; reflexivity);
    try (destruct Hs; discriminate);
    destruct Hs as [[? Hs1] [? Hs2]]; discriminate.
Qed.

Lemma forall_range_is_Some {B} (f : Z -> option B) (n : Z) :
  is_Some (mapM f (int_range n)) <-> forall x, 0 <= x < n -> is_Some (f x).
Proof.
  rewrite mapM_is_Some, Forall_forall. split.
  - intros Hall x Hx. apply (Hall x). now apply int_range_spec.
  - intros Hall x Hx. apply Hall. now apply int_range_spec.
Qed.

Lemma time_block_is_Some (n t : Z) :
  is_Some (time_block n t) <->
  INT_MIN <= t * 10 <= INT_MAX /\
  forall i, 0 <= i < n -> is_Some (change_line t i).
Proof.
  rewrite <- int_value_is_Some, <- forall_range_is_Some. unfold time_block.
  destruct (int_value (t * 10)), (mapM (change_line t) (int_range n));
    cbn; split; intros Hs;
    try (split; eexists; reflexivity); try (eexists; reflexivity);
    try (destruct Hs; discriminate);
    destruct Hs as [[? Hs1] [? Hs2]]; discriminate.
Qed.

Lemma generate_test_vcd_text_is_Some (n k : Z) :
  is_Some (generate_test_vcd_text n k) <->
  is_Some (mapM var_line (int_range n)) /\
  is_Some (mapM dump_line (int_range n)) /\
  is_Some (mapM (time_block n) (int_range k)).
Proof.
  unfold generate_test_vcd_text.
  destruct (mapM var_line (int_range n)),
    (mapM dump_line (int_range n)),
    (mapM (time_block n) (int_range k)); cbn; split; intros Hs;
    try (repeat split; eexists; reflexivity); try (eexists; reflexivity);
    try (destruct Hs; discriminate);
    destruct Hs as ([? Hs1] & [? Hs2] & [? Hs3]); discriminate.
Qed.

(** X13: [generate_test_vcd] is free of signed overflow, and so has
    defined behaviour, exactly for these counts: at most [INT_MAX - 32]
    signals and, if there is a time step at all, at most 214748365 time
    steps with, if there is a signal at all, the two counts summing to at
    most [INT_MAX + 2]. *)
Theorem generate_test_vcd_defined_iff (num_signals num_timestamps : Z) :
  is_Some (generate_test_vcd_text num_signals num_timestamps) <->
  num_signals <= INT_MAX - 32 /\
  (num_timestamps <= 0 \/
   (num_timestamps <= 214748365 /\
    (num_signals <= 0 \/ num_signals + num_timestamps <= INT_MAX + 2))).
Proof.
  rewrite generate_test_vcd_text_is_Some, !forall_range_is_Some.
  unfold INT_MAX. split.
  - intros (Hv & _ & Hb). split.
    + destruct (Z_le_gt_dec num_signals (2147483647 - 32)) as [| Hgt];
        [assumption |].
      assert (Hx : 0 <= 2147483647 - 32 < num_signals) by lia.
      apply Hv, var_line_is_Some in Hx. unfold INT_MAX in Hx. lia.
    + destruct (Z_le_gt_dec num_timestamps 0) as [| Hk]; [left; lia | right].
      assert (Ht : 0 <= num_timestamps - 1 < num_timestamps) by lia.
      apply Hb, time_block_is_Some in Ht as [Ht Hc]. unfold INT_MAX in Ht.
      split; [lia |].
      destruct (Z_le_gt_dec num_signals 0) as [| Hn]; [left; lia | right].
      assert (Hi : 0 <= num_signals - 1 < num_signals) by lia.
      apply Hc, change_line_is_Some in Hi as [Hi _]. unfold INT_MAX in Hi.
      lia.
  - intros (Hn & Hk). unfold INT_MIN. repeat split.
    + intros x Hx. apply var_line_is_Some. unfold INT_MIN, INT_MAX. lia.
    + intros x Hx. apply dump_line_is_Some. unfold INT_MIN, INT_MAX. lia.
    + intros t Ht. apply time_block_is_Some. unfold INT_MIN, INT_MAX.
      split; [lia |].
      intros i Hi. apply change_line_is_Some. unfold INT_MIN, INT_MAX. lia.
Qed.

(** * The further properties at concrete inputs *)

Lemma parse_file_failure_leaves_fh_dangling_witness :
  exists m',
    sample_parse_file "bad.vcd" sample_machine = Returned None m' /\
    fh (self m') = Some 0%nat /\
    w_files (world m') !! 0%nat = None.
Proof.
  apply (@parse_file_failure_leaves_fh_dangling Z binary64_limits
           posix_strerror stub_grammar "bad.vcd" "garbage" sample_machine);
    [reflexivity | discriminate | discriminate].
Defined.

Lemma scan_begin_scan_end_round_trip_witness :
  exists m',
    bind (scan_begin posix_strerror) (fun _ => scan_end) sample_named_machine =
      Returned tt m' /\
    w_streams (world m') = w_streams (world sample_named_machine) /\
    w_scanners (world m') = w_scanners (world sample_named_machine) /\
    w_stdin_open (world m') = w_stdin_open (world sample_named_machine) /\
    w_stdin (world m') = w_stdin (world sample_named_machine) /\
    input_file (self m') = None /\
    scanner (self m') = None.
Proof.
  apply (@scan_begin_scan_end_round_trip Z posix_strerror sample_named_machine).
  - right. eexists. reflexivity.
  - reflexivity.
  - reflexivity.
Defined.

Lemma scan_end_idempotent_witness :
  exists m',
    scan_end sample_stdin_machine = Returned tt m' /\
    scan_end m' = Returned tt m'.
Proof.
  apply (@scan_end_idempotent Z sample_stdin_machine).
  - exact I.
  - eexists. reflexivity.
Defined.

Lemma later_parse_keeps_earlier_trace_witness :
  allocation_monotone stub_grammar /\
  sample_parse_file "a.vcd" sample_machine =
    Returned (Some 0%nat) sample_machine_after_a /\
  exists r2 m2,
    sample_parse_file "bad.vcd" sample_machine_after_a = Returned r2 m2 /\
    r2 <> Some 0%nat /\
    is_Some (w_files (world sample_machine_after_a) !! 0%nat) /\
    w_files (world m2) !! 0%nat =
      w_files (world sample_machine_after_a) !! 0%nat /\
    (forall b,
       (b < w_next_obj (world sample_machine_after_a))%nat ->
       gs_scope_objs
         (go_state
            (stub_grammar
               (grammar_input "bad.vcd" "garbage" sample_machine_after_a)))
         !! b =
       gs_scope_objs
         (gi_state (grammar_input "bad.vcd" "garbage" sample_machine_after_a))
         !! b ->
       (go_result
          (stub_grammar
             (grammar_input "bad.vcd" "garbage" sample_machine_after_a)) <> 0 ->
        b ∉ file_scopes
              (gs_trace
                 (go_state
                    (stub_grammar
                       (grammar_input "bad.vcd" "garbage"
                          sample_machine_after_a))))) ->
       w_scope_objs (world m2) !! b =
         w_scope_objs (world sample_machine_after_a) !! b).
Proof.
  assert (Hm : allocation_monotone stub_grammar) by (intros i; cbn; lia).
  assert (Hr : sample_parse_file "a.vcd" sample_machine =
               Returned (Some 0%nat) sample_machine_after_a)
    by (vm_compute; reflexivity).
  split; [exact Hm |]. split; [exact Hr |].
  apply (@later_parse_keeps_earlier_trace Z binary64_limits posix_strerror
           stub_grammar "a.vcd" "bad.vcd" "garbage" sample_machine
           sample_machine_after_a 0%nat Hm Hr);
    [vm_compute; reflexivity | vm_compute; discriminate].
Defined.

(** After the failing second parse the root scope of the first Trace is
    still on the heap, unchanged. *)
Example earlier_root_scope_survives :
  match sample_parse_file "bad.vcd" sample_machine_after_a with
  | Returned _ m2 =>
      w_scope_objs (world m2) !! 2%nat = Some (root_named "") /\
      w_scope_objs (world sample_machine_after_a) !! 2%nat =
        Some (root_named "")
  | _ => False
  end.
Proof. vm_compute. split; reflexivity. Qed.

Lemma location_carried_into_next_call_witness :
  loc (self sample_machine_after_a) =
    gs_loc (go_state (stub_grammar
              (grammar_input "a.vcd" "$date today $end" sample_machine))) /\
  current_time (self sample_machine_after_a) =
    gs_current_time (go_state (stub_grammar
              (grammar_input "a.vcd" "$date today $end" sample_machine))) /\
  gs_loc (gi_state (grammar_input "bad.vcd" "garbage" sample_machine_after_a)) =
    gs_loc (go_state (stub_grammar
              (grammar_input "a.vcd" "$date today $end" sample_machine))) /\
  gs_current_time
    (gi_state (grammar_input "bad.vcd" "garbage" sample_machine_after_a)) = 0.
Proof.
  apply (@location_carried_into_next_call Z binary64_limits posix_strerror
           stub_grammar "a.vcd" "bad.vcd" "$date today $end" "garbage"
           sample_machine sample_machine_after_a (Some 0%nat));
    [reflexivity | vm_compute; reflexivity].
Defined.

Lemma parse_file_adds_no_diagnostics_witness :
  exists text,
    source_text "bad.vcd" (world sample_machine_after_a) = Some text /\
    match sample_parse_file "bad.vcd" sample_machine_after_a with
    | Returned _ m' =>
        w_stderr (world m') =
          w_stderr (world sample_machine_after_a) ++
            go_diag (stub_grammar
                       (grammar_input "bad.vcd" text sample_machine_after_a))
    | _ => False
    end.
Proof.
  destruct (sample_parse_file "bad.vcd" sample_machine_after_a)
    as [r m' | st m' |] eqn:Hrun;
    [| vm_compute in Hrun; discriminate Hrun
     | vm_compute in Hrun; discriminate Hrun].
  exact (@parse_file_adds_no_diagnostics Z binary64_limits posix_strerror
           stub_grammar "bad.vcd" sample_machine_after_a m' r Hrun).
Defined.

Lemma parse_file_starts_engine_on_fresh_root_witness :
  (forall i, engine_start_invariant i -> stub_grammar i = picky_grammar i) /\
  parse_file posix_strerror stub_grammar "a.vcd" sample_machine =
  parse_file posix_strerror picky_grammar "a.vcd" sample_machine.
Proof.
  assert (Hagree : forall i : @GrammarIn Z,
            engine_start_invariant i -> stub_grammar i = picky_grammar i).
  { intros i (top & below & rest & Hst & _). unfold picky_grammar.
    now rewrite Hst. }
  split; [exact Hagree |].
  exact (@parse_file_starts_engine_on_fresh_root Z binary64_limits
           posix_strerror stub_grammar picky_grammar "a.vcd" sample_machine
           Hagree).
Defined.

Lemma traverse_scope_renders_tree_witness :
  shaped sample_scopes 10%nat sample_tree /\
  traverse_scope 3 sample_scopes "" 10%nat = Text (render "" sample_tree).
Proof.
  assert (Hsh : shaped sample_scopes 10%nat sample_tree).
  { repeat (constructor; try reflexivity). }
  split; [exact Hsh |].
  apply (traverse_scope_renders_tree 3 sample_scopes "" 10%nat sample_tree Hsh).
  cbn. lia.
Defined.

Lemma traverse_scope_never_finishes_on_cycle_witness :
  (forall b, b = 0%nat \/ b = 1%nat ->
     exists o c,
       looping_scopes !! b = Some o /\ c ∈ children o /\
       (c = 0%nat \/ c = 1%nat)) /\
  (forall (fuel : nat) (s : string),
     traverse_scope fuel looping_scopes "" 0%nat <> Text s).
Proof.
  assert (Hclosed : forall b, b = 0%nat \/ b = 1%nat ->
            exists o c,
              looping_scopes !! b = Some o /\ c ∈ children o /\
              (c = 0%nat \/ c = 1%nat)).
  { intros b [-> | ->].
    - exists (mkVCDScope "a" (Some VCD_SCOPE_MODULE) None [1%nat] []), 1%nat.
      split; [reflexivity |]. split; [apply elem_of_cons; now left | now right].
    - exists (mkVCDScope "b" (Some VCD_SCOPE_MODULE) None [0%nat] []), 0%nat.
      split; [reflexivity |]. split; [apply elem_of_cons; now left | now left]. }
  split; [exact Hclosed |].
  intros fuel s.
  apply (traverse_scope_never_finishes_on_cycle
           (fun b => b = 0%nat \/ b = 1%nat) looping_scopes Hclosed).
  now left.
Defined.

Lemma id_char_collides_modulo_256_witness :
  id_char 0 = id_char 256 /\ id_char 0 <> id_char 255.
Proof.
  split.
  - apply (proj2 (id_char_collides_modulo_256 0 256 ltac:(cbv; split; discriminate)
                    ltac:(cbv; split; discriminate))).
    reflexivity.
  - intros Heq.
    apply (proj1 (id_char_collides_modulo_256 0 255 ltac:(cbv; split; discriminate)
                    ltac:(cbv; split; discriminate))) in Heq.
    discriminate Heq.
Defined.

Lemma parse_file_exits_only_on_open_failure_witness :
  EXIT_FAILURE = EXIT_FAILURE /\
  "locked.vcd" <> "" /\ "locked.vcd" <> "-" /\
  exists e, open_errno "locked.vcd" (world sample_machine) = Some e.
Proof.
  apply (@parse_file_exits_only_on_open_failure Z binary64_limits
           posix_strerror stub_grammar "locked.vcd" sample_machine
           (mkMachine (session_at_exit "locked.vcd" sample_machine)
              (world_at_exit posix_strerror "locked.vcd" 13 sample_machine))
           EXIT_FAILURE).
  vm_compute. reflexivity.
Defined.
